(** * Personal Expense Tracker (src/expense_tracker.py)

    A shallow embedding of the console expense tracker and of the parts of the
    Python runtime it calls, followed by the properties of its specification.

    Conventions of the embedding.
    - A Python [str] is a Rocq [string]; its characters are bytes.
    - A Python [float] is an IEEE 754 binary64 number: [spec_float] with
      precision 53 and maximal exponent 1024, with the operations of
      [SpecFloat] (round to nearest, ties to even).
    - An exception is a value of [Py.exn]; fallible code returns [Py.result].
    - Standard input is the list of the lines still to be typed; [input()]
      takes the first one and raises EOFError on the empty list.
    - Standard output is the list of the lines printed, as structured
      messages carrying the values shown. Screen decoration ([clear_screen],
      [print_header], the rules of dashes, the table headings and the prompt
      texts of [input]) is left out.
    - The disk is the state of the one path the program uses, [EXPENSE_FILE].
    - [main] and its menu loop are embedded with a clock, which gives the
      date at each turn of the loop, and with a bound on the number of
      turns, which the lines typed never let it reach.
    - [sum] adds its items from left to right ([Py.sum]); CPython from
      version 3.12 on compensates the rounding errors of these additions
      ([Py.sum_compensated]), which is stated where it matters.
    - The csv module is embedded for the default (excel) dialect, the one the
      program uses: delimiter comma, quote character double quote, doubled
      quotes, minimal quoting, line terminator CR LF, not strict. The limit
      the module puts on the size of one field, its rejection of the NUL
      character in the versions that have it, and the encoding of the text
      file are outside the embedding. *)

From Stdlib Require Import ZArith QArith SpecFloat Ascii.
From stdpp Require Import gmap strings list.

Local Open Scope Z_scope.

(** ** Python runtime *)

Module Py.

(** Exceptions the program can meet. *)
Inductive exn :=
| KeyError | IndexError | TypeError | ValueError | ZeroDivisionError
| EOFError | OSError | CsvError.

Inductive result (A : Type) :=
| Ok (a : A)
| Raise (e : exn).
Arguments Ok {A} a.
Arguments Raise {A} e.

Definition bind {A B} (m : result A) (k : A -> result B) : result B :=
  match m with
  | Ok a => k a
  | Raise e => Raise e
  end.

Definition of_option {A} (e : exn) (o : option A) : result A :=
  match o with
  | Some a => Ok a
  | None => Raise e
  end.

Global Instance exn_eq_dec : EqDecision exn.
Proof. solve_decision. Defined.

Global Instance result_ret : MRet result := fun A a => Ok a.
Global Instance result_bind : MBind result := fun A B k m => bind m k.

Definition succeeded {A} (m : result A) : bool :=
  match m with
  | Ok _ => true
  | Raise _ => false
  end.

(** *** Characters and strings *)

Definition dquote : ascii := "034"%char.
Definition comma : ascii := ","%char.
Definition CR : ascii := "013"%char.
Definition LF : ascii := "010"%char.

Definition code (c : ascii) : N := N_of_ascii c.

(** White space as [str.strip], [int] and [float] see it (one-byte part). *)
Definition is_space (c : ascii) : bool :=
  let n := code c in
  ((9 <=? n) && (n <=? 13) || (28 <=? n) && (n <=? 32))%N.

Definition is_digit (c : ascii) : bool :=
  let n := code c in ((48 <=? n) && (n <=? 57))%N.

Definition digit_val (c : ascii) : Z := Z.of_N (code c) - 48.

Definition lower_char (c : ascii) : ascii :=
  let n := code c in
  if ((65 <=? n) && (n <=? 90))%N then ascii_of_N (n + 32) else c.

Definition upper_char (c : ascii) : ascii :=
  let n := code c in
  if ((97 <=? n) && (n <=? 122))%N then ascii_of_N (n - 32) else c.

(** [str.upper] *)
Fixpoint upper (s : string) : string :=
  match s with
  | EmptyString => EmptyString
  | String c s' => String (upper_char c) (upper s')
  end.

(** [str.lower] *)
Fixpoint lower (s : string) : string :=
  match s with
  | EmptyString => EmptyString
  | String c s' => String (lower_char c) (lower s')
  end.

Fixpoint lstrip (s : string) : string :=
  match s with
  | String c s' => if is_space c then lstrip s' else s
  | EmptyString => EmptyString
  end.

(** [str.strip] *)
Definition strip (s : string) : string :=
  String.rev (lstrip (String.rev (lstrip s))).

(** [s[:n]] *)
Fixpoint slice_to (n : nat) (s : string) : string :=
  match n, s with
  | S n', String c s' => String c (slice_to n' s')
  | _, _ => EmptyString
  end.

(** *** int(str) *)

(** The digits that follow a digit: [(_? digit)*]. Returns the value
    accumulated, the number of digits read and the text left. *)
Fixpoint scan_digits (acc : Z) (n : Z) (s : string) : Z * Z * string :=
  match s with
  | String c s' =>
      if is_digit c then scan_digits (acc * 10 + digit_val c) (n + 1) s'
      else if Ascii.eqb c "_" then
        match s' with
        | String c2 s'' =>
            if is_digit c2
            then scan_digits (acc * 10 + digit_val c2) (n + 1) s''
            else (acc, n, s)
        | EmptyString => (acc, n, s)
        end
      else (acc, n, s)
  | EmptyString => (acc, n, s)
  end.

(** [digit (_? digit)*], or nothing read when the text starts otherwise. *)
Definition digitpart (s : string) : Z * Z * string :=
  match s with
  | String c s' => if is_digit c then scan_digits (digit_val c) 1 s' else (0, 0, s)
  | EmptyString => (0, 0, s)
  end.

Definition split_sign (s : string) : bool * string :=
  match s with
  | String "-" s' => (true, s')
  | String "+" s' => (false, s')
  | _ => (false, s)
  end.

(** [int(s)], [None] for ValueError. *)
Definition int (s : string) : option Z :=
  let '(neg, body) := split_sign (strip s) in
  match digitpart body with
  | (v, n, EmptyString) =>
      if 0 <? n then Some (if neg then - v else v) else None
  | _ => None
  end.

(** [xs.pop(i)] for an index that is not negative. *)
Definition pop {A} (i : nat) (xs : list A) : result (A * list A) :=
  match xs !! i with
  | Some x => Ok (x, delete i xs)
  | None => Raise IndexError
  end.

(** *** float *)

Definition prec : Z := 53.
Definition emax : Z := 1024.

Definition float := spec_float.

Definition fzero : float := S754_zero false.
Definition fadd : float -> float -> float := SFadd prec emax.
Definition fsub : float -> float -> float := SFsub prec emax.
Definition fmul : float -> float -> float := SFmul prec emax.
Definition fltb : float -> float -> bool := SFltb.
Definition fabs : float -> float := SFabs.

(** Conversion of an [int] to [float] (correctly rounded). *)
Definition float_of_Z (n : Z) : float := binary_normalize prec emax n 0 false.

Definition is_zero (x : float) : bool :=
  match x with
  | S754_zero _ => true
  | _ => false
  end.

Definition is_finite (x : float) : bool :=
  match x with
  | S754_zero _ | S754_finite _ _ _ => true
  | _ => false
  end.

(** [x / y] on floats: ZeroDivisionError on a zero divisor. *)
Definition truediv (x y : float) : result float :=
  if is_zero y then Raise ZeroDivisionError else Ok (SFdiv prec emax x y).

(** [x / n] for a float and an int: the int is converted to float;
    ZeroDivisionError when it is zero. *)
Definition truediv_int (x : float) (n : Z) : result float :=
  if n =? 0 then Raise ZeroDivisionError
  else Ok (SFdiv prec emax x (float_of_Z n)).

(** The binary64 number nearest to [(-1)^neg * m * 10^e]. *)
Definition decimal_to_float (neg : bool) (m : Z) (e : Z) : float :=
  match m with
  | Zpos p =>
      if 0 <=? e
      then binary_normalize prec emax ((if neg then -1 else 1) * (m * 10 ^ e)) 0 false
      else SFdiv prec emax (S754_finite neg p 0)
                 (S754_finite false (Z.to_pos (10 ^ (- e))) 0)
  | _ => S754_zero neg
  end.

(** The exponent part of a float literal, after the mantissa. *)
Definition exponent_part (s : string) : option Z :=
  match s with
  | EmptyString => Some 0
  | String c s' =>
      if Ascii.eqb (lower_char c) "e" then
        let '(neg, body) := split_sign s' in
        match digitpart body with
        | (v, n, EmptyString) =>
            if 0 <? n then Some (if neg then - v else v) else None
        | _ => None
        end
      else None
  end.

(** A decimal literal without its sign: mantissa and power of ten. *)
Definition decimal_literal (s : string) : option (Z * Z) :=
  let '(iv, ni, s1) := digitpart s in
  let '(fv, nf, s2) :=
    match s1 with
    | String "." s1' =>
        let '(fv, nf, s2) := digitpart s1' in (iv * 10 ^ nf + fv, nf, s2)
    | _ => (iv, 0, s1)
    end in
  if 0 <? ni + nf then
    match exponent_part s2 with
    | Some ex => Some (fv, ex - nf)
    | None => None
    end
  else None.

(** [float(s)], [None] for ValueError. *)
Definition float_of_str (s : string) : option float :=
  let '(neg, body) := split_sign (strip s) in
  let l := lower body in
  if String.eqb l "inf" || String.eqb l "infinity" then Some (S754_infinity neg)
  else if String.eqb l "nan" then Some S754_nan
  else
    match decimal_literal body with
    | Some (m, e) => Some (decimal_to_float neg m e)
    | None => None
    end.

(** *** str(float)

    [str] of a float is its [repr]: the shortest string of decimal digits
    that reads back as the same float (the nearest one when several of that
    length do), laid out in positional notation when the decimal point
    falls within the digits or close to them, and with an exponent
    otherwise. *)

Fixpoint dec_go (fuel : nat) (n : Z) (acc : string) : string :=
  match fuel with
  | O => acc
  | S fuel' =>
      let acc' := String (ascii_of_N (Z.to_N (n mod 10) + 48)) acc in
      if n <? 10 then acc' else dec_go fuel' (n / 10) acc'
  end.

(** Decimal digits of a natural number. *)
Definition dec_str (n : Z) : string :=
  dec_go (S (Z.to_nat (Z.log2 n))) n EmptyString.

Definition ndigits10 (n : Z) : Z := Z.of_nat (String.length (dec_str n)).

(** [floor (log10 (num / den))] for positive [num] and [den]. *)
Definition floor_log10 (num den : Z) : Z :=
  let k0 := ndigits10 num - ndigits10 den in
  let above :=
    if 0 <=? k0 then den * 10 ^ k0 <=? num else den <=? num * 10 ^ (- k0) in
  if above then k0 else k0 - 1.

(** The decimals [c * 10^sh] with [p] digits next to [num / den], and the
    one among them that reads back as [x]; with [force] the nearest one is
    taken whether it reads back or not. *)
Definition candidate (force : bool) (x : float) (num den k p : Z)
  : option (Z * Z) :=
  let sh := k - p + 1 in
  let n := if sh <? 0 then num * 10 ^ (- sh) else num in
  let d := if sh <? 0 then den else den * 10 ^ sh in
  let lo := n / d in
  let r := n mod d in
  let hi := lo + 1 in
  let back c := SFeqb (decimal_to_float false c sh) x in
  let nearest :=
    if 2 * r <? d then lo
    else if d <? 2 * r then hi
    else if Z.even lo then lo else hi in
  if r =? 0 then (if back lo || force then Some (lo, sh) else None)
  else if force then Some (nearest, sh)
  else
    match back lo, back hi with
    | true, true => Some (nearest, sh)
    | true, false => Some (lo, sh)
    | false, true => Some (hi, sh)
    | false, false => None
    end.

Fixpoint shortest (fuel : nat) (x : float) (num den k p : Z) : Z * Z :=
  match fuel with
  | O => default (0, 0) (candidate true x num den k p)
  | S fuel' =>
      match candidate false x num den k p with
      | Some c => c
      | None => shortest fuel' x num den k (p + 1)
      end
  end.

Fixpoint drop_zeros (fuel : nat) (c sh : Z) : Z * Z :=
  match fuel with
  | O => (c, sh)
  | S fuel' =>
      if (c mod 10 =? 0) && (0 <? c) then drop_zeros fuel' (c / 10) (sh + 1)
      else (c, sh)
  end.

Fixpoint zeros (n : nat) : string :=
  match n with
  | O => EmptyString
  | S n' => String "0" (zeros n')
  end.

(** Layout of the digits [ds] with the decimal point after [decpt] digits. *)
Definition layout (ds : string) (decpt : Z) : string :=
  let nd := Z.of_nat (String.length ds) in
  if (16 <? decpt) || (decpt <? -3) then
    let ex := decpt - 1 in
    let mant :=
      match ds with
      | String c EmptyString => String c EmptyString
      | String c rest => String c (String "." rest)
      | EmptyString => EmptyString
      end in
    let exs := dec_str (Z.abs ex) in
    mant +:+ "e" +:+ (if ex <? 0 then "-" else "+")
         +:+ (if Z.abs ex <? 10 then "0" else "") +:+ exs
  else if decpt <=? 0 then
    "0." +:+ zeros (Z.to_nat (- decpt)) +:+ ds
  else if nd <=? decpt then
    ds +:+ zeros (Z.to_nat (decpt - nd)) +:+ ".0"
  else
    String.substring 0 (Z.to_nat decpt) ds +:+ "."
      +:+ String.substring (Z.to_nat decpt) (Z.to_nat (nd - decpt)) ds.

Definition str_of_float (x : float) : string :=
  match x with
  | S754_nan => "nan"
  | S754_infinity s => if s then "-inf" else "inf"
  | S754_zero s => if s then "-0.0" else "0.0"
  | S754_finite s m e =>
      let num := if 0 <=? e then Zpos m * 2 ^ e else Zpos m in
      let den := if 0 <=? e then 1 else 2 ^ (- e) in
      let k := floor_log10 num den in
      let '(c, sh) := shortest 16 (S754_finite false m e) num den k 1 in
      let '(c, sh) := drop_zeros 17 c sh in
      let ds := dec_str c in
      (if s then "-" else "") +:+ layout ds (Z.of_nat (String.length ds) + sh)
  end.

(** [sum(xs)] for floats: the items are added from left to right, starting
    from the integer 0 (which the first addition turns into 0.0). *)
Definition sum (xs : list float) : float := foldl fadd fzero xs.

(** [sum] as CPython computes it for floats from version 3.12 on: the
    rounding errors of the additions are accumulated apart and added to
    the result at the end. *)
Definition compensated_step (fc : float * float) (x : float) : float * float :=
  let '(f, c) := fc in
  let t := fadd f x in
  (t, if SFleb (fabs x) (fabs f)
      then fadd c (fadd (fsub f t) x)
      else fadd c (fadd (fsub x t) f)).

Definition sum_compensated (xs : list float) : float :=
  match xs with
  | [] => fzero
  | x :: xs' =>
      let '(f, c) := foldl compensated_step (fadd fzero x, fzero) xs' in
      if negb (is_zero c) && is_finite c then fadd f c else f
  end.

End Py.

(** ** The csv module, default dialect *)

Module Csv.
Import Py.

(** *** Writer *)

(** Characters that make the writer quote a field: the delimiter, the quote
    character and the characters of the line terminator. *)
Definition special (c : ascii) : bool :=
  Ascii.eqb c comma || Ascii.eqb c dquote || Ascii.eqb c CR || Ascii.eqb c LF.

Fixpoint has_special (s : string) : bool :=
  match s with
  | EmptyString => false
  | String c s' => special c || has_special s'
  end.

(** The field copied with every quote character doubled. *)
Fixpoint double_quotes (s : string) : string :=
  match s with
  | EmptyString => EmptyString
  | String c s' =>
      if Ascii.eqb c dquote then String dquote (String dquote (double_quotes s'))
      else String c (double_quotes s')
  end.

(** One field as the writer lays it out (join_append). *)
Definition write_field (s : string) : string :=
  if has_special s
  then String dquote (double_quotes s +:+ String dquote EmptyString)
  else s.

Fixpoint join_fields (fs : list string) : string :=
  match fs with
  | [] => EmptyString
  | [f] => write_field f
  | f :: fs' => write_field f +:+ String comma (join_fields fs')
  end.

Definition lineterminator : string := String CR (String LF EmptyString).

(** [writer.writerow]: [None] is written as the empty string; a record
    made of one empty field is written as a pair of quotes. *)
Definition writerow (row : list (option string)) : string :=
  let fs := map (default EmptyString) row in
  match fs with
  | [EmptyString] => String dquote (String dquote lineterminator)
  | _ => join_fields fs +:+ lineterminator
  end.

(** *** Lines of a text file opened with newline=''

    The file is cut after every LF, CR LF or lone CR, and the line keeps
    its ending. [cur] is the part of the current line already read. *)
Fixpoint splitlines_from (cur : string) (s : string) : list string :=
  match s with
  | EmptyString =>
      match cur with
      | EmptyString => []
      | _ => [cur]
      end
  | String c s' =>
      if Ascii.eqb c LF then
        (cur +:+ String LF EmptyString) :: splitlines_from EmptyString s'
      else if Ascii.eqb c CR then
        match s' with
        | String c2 s'' =>
            if Ascii.eqb c2 LF
            then (cur +:+ lineterminator) :: splitlines_from EmptyString s''
            else (cur +:+ String CR EmptyString) :: splitlines_from EmptyString s'
        | EmptyString => [cur +:+ String CR EmptyString]
        end
      else splitlines_from (cur +:+ String c EmptyString) s'
  end.

Definition splitlines (s : string) : list string :=
  splitlines_from EmptyString s.

(** *** Reader

    The states of the parser that the default dialect reaches (it has no
    escape character). *)
Inductive ParserState :=
| START_RECORD | START_FIELD | IN_FIELD | IN_QUOTED_FIELD
| QUOTE_IN_QUOTED_FIELD | EAT_CRNL.

Global Instance ParserState_eq_dec : EqDecision ParserState.
Proof. solve_decision. Defined.

Record parser := Parser {
  state : ParserState;
  field : string;          (* characters of the field being read *)
  fields : list string     (* fields of the record read so far *)
}.

Definition parse_reset : parser := Parser START_RECORD EmptyString [].

Definition parse_add_char (p : parser) (c : ascii) : parser :=
  Parser (state p) (field p +:+ String c EmptyString) (fields p).

Definition parse_save_field (p : parser) : parser :=
  Parser (state p) EmptyString (fields p ++ [field p]).

Definition set_state (st : ParserState) (p : parser) : parser :=
  Parser st (field p) (fields p).

Definition is_newline (c : ascii) : bool := Ascii.eqb c LF || Ascii.eqb c CR.

Definition start_field (p : parser) (c : option ascii) : parser :=
  match c with
  | None => set_state START_RECORD (parse_save_field p)
  | Some ch =>
      if is_newline ch then set_state EAT_CRNL (parse_save_field p)
      else if Ascii.eqb ch dquote then set_state IN_QUOTED_FIELD p
      else if Ascii.eqb ch comma then parse_save_field p
      else set_state IN_FIELD (parse_add_char p ch)
  end.

(** One step of the parser; [None] is the end of a line. *)
Definition parse_process_char (p : parser) (c : option ascii) : result parser :=
  match state p with
  | START_RECORD =>
      match c with
      | None => Ok p
      | Some ch =>
          if is_newline ch then Ok (set_state EAT_CRNL p)
          else Ok (start_field (set_state START_FIELD p) c)
      end
  | START_FIELD => Ok (start_field p c)
  | IN_FIELD =>
      match c with
      | None => Ok (set_state START_RECORD (parse_save_field p))
      | Some ch =>
          if is_newline ch then Ok (set_state EAT_CRNL (parse_save_field p))
          else if Ascii.eqb ch comma
          then Ok (set_state START_FIELD (parse_save_field p))
          else Ok (parse_add_char p ch)
      end
  | IN_QUOTED_FIELD =>
      match c with
      | None => Ok p
      | Some ch =>
          if Ascii.eqb ch dquote then Ok (set_state QUOTE_IN_QUOTED_FIELD p)
          else Ok (parse_add_char p ch)
      end
  | QUOTE_IN_QUOTED_FIELD =>
      match c with
      | None => Ok (set_state START_RECORD (parse_save_field p))
      | Some ch =>
          if Ascii.eqb ch dquote
          then Ok (set_state IN_QUOTED_FIELD (parse_add_char p ch))
          else if Ascii.eqb ch comma
          then Ok (set_state START_FIELD (parse_save_field p))
          else if is_newline ch
          then Ok (set_state EAT_CRNL (parse_save_field p))
          else Ok (set_state IN_FIELD (parse_add_char p ch))
      end
  | EAT_CRNL =>
      match c with
      | None => Ok (set_state START_RECORD p)
      | Some ch => if is_newline ch then Ok p else Raise CsvError
      end
  end.

(** The characters of a piece of a line, in order. *)
Fixpoint feed (p : parser) (s : string) : result parser :=
  match s with
  | EmptyString => Ok p
  | String c s' => bind (parse_process_char p (Some c)) (fun p' => feed p' s')
  end.

(** A whole line: its characters, then the end of line. *)
Definition parse_line (p : parser) (line : string) : result parser :=
  bind (feed p line) (fun p' => parse_process_char p' None).

(** What an iterator produces when it is run to its end: the items, and
    the exception that stopped it if one did. *)
Record trace (A : Type) := Trace {
  items : list A;
  stopped : option exn
}.
Arguments Trace {A} items stopped.
Arguments items {A} t.
Arguments stopped {A} t.

Definition yield {A} (a : A) (t : trace A) : trace A :=
  Trace (a :: items t) (stopped t).

(** The records the reader produces from the lines of its input. [p] is
    the parser in the middle of a record ([parse_reset] between records);
    [fault] tells whether the input raises once its lines are used up. *)
Fixpoint reader_from (p : parser) (lines : list string) (fault : option exn)
  : trace (list string) :=
  match lines with
  | [] =>
      match fault with
      | Some e => Trace [] (Some e)
      | None =>
          if negb (String.eqb (field p) EmptyString)
             || bool_decide (state p = IN_QUOTED_FIELD)
          then Trace [fields (parse_save_field p)] None
          else Trace [] None
      end
  | line :: lines' =>
      match parse_line p line with
      | Raise e => Trace [] (Some e)
      | Ok p' =>
          if bool_decide (state p' = START_RECORD)
          then yield (fields p') (reader_from parse_reset lines' fault)
          else reader_from p' lines' fault
      end
  end.

Definition reader (lines : list string) (fault : option exn)
  : trace (list string) :=
  reader_from parse_reset lines fault.

(** *** Rows as dictionaries

    A row of [DictReader], and a row given to [DictWriter]: the values
    under the string keys are strings or [None]; the fields beyond the
    header, if any, are a list under the key [None]. *)
Record row := Row {
  named : gmap string (option string);
  extra : option (list string)
}.

Global Instance row_eq_dec : EqDecision row.
Proof. solve_decision. Defined.

(** [dict(zip(fieldnames, values))], then the keys left without value. *)
Definition zip_row (fieldnames values : list string) : row :=
  let d := foldl (fun d kv => <[kv.1 := Some kv.2]> d) ∅ (zip fieldnames values) in
  let lf := length fieldnames in
  let lr := length values in
  Row (foldl (fun d k => <[k := None]> d) d (drop lr fieldnames))
      (if bool_decide (lf < lr)%nat then Some (drop lf values) else None).

(** [DictReader]: the first record is the header; blank records after it
    are skipped; every other record becomes a dictionary. *)
Definition DictReader (lines : list string) (fault : option exn) : trace row :=
  let t := reader lines fault in
  match items t with
  | [] => Trace [] (stopped t)
  | fieldnames :: rows =>
      Trace (map (zip_row fieldnames)
                 (filter (fun r => r ≠ []) rows))
            (stopped t)
  end.

(** [DictWriter._dict_to_list]: ValueError when the dictionary has a key
    that is not a field name; a missing key is written as ''. *)
Definition dict_to_list (fieldnames : list string) (r : row)
  : result (list (option string)) :=
  if bool_decide (dom (named r) ⊆ list_to_set fieldnames)
     && bool_decide (extra r = None)
  then Ok (map (fun k => default (Some EmptyString) (named r !! k)) fieldnames)
  else Raise ValueError.

Definition writeheader (fieldnames : list string) : string :=
  writerow (map Some fieldnames).

(** [DictWriter.writerows]: the text written, and the exception that
    interrupted it if one did. The rows before it have been written. *)
Fixpoint writerows (fieldnames : list string) (rows : list row)
  : string * option exn :=
  match rows with
  | [] => (EmptyString, None)
  | r :: rows' =>
      match dict_to_list fieldnames r with
      | Raise e => (EmptyString, Some e)
      | Ok vals =>
          let '(text, err) := writerows fieldnames rows' in
          (writerow vals +:+ text, err)
      end
  end.

End Csv.

(** ** The program *)

Module Tracker.
Import Py Csv.

(** Global variables *)
Definition CATEGORIES : list string :=
  ["Food"; "Transport"; "Entertainment"; "Bills"; "Shopping"; "Health"; "Other"].

(** [fieldnames] of [save_expenses] *)
Definition fieldnames : list string :=
  ["date"; "category"; "description"; "amount"].

(** An expense is a dictionary: built by [add_expense], or a row of
    [DictReader]. *)
Abbreviation expense := row.

(** The dictionary display of [add_expense]. *)
Definition mk_expense (date category description amount : string) : expense :=
  Row (<["amount" := Some amount]>
         (<["description" := Some description]>
            (<["category" := Some category]>
               (<["date" := Some date]> ∅))))
      None.

(** [e[key]]; the value is a string or [None]. *)
Definition getitem (e : expense) (key : string) : result (option string) :=
  of_option KeyError (named e !! key).

(** [float(v)] *)
Definition to_float (v : option string) : result float :=
  match v with
  | Some s => of_option ValueError (float_of_str s)
  | None => Raise TypeError
  end.

(** A value laid out by a format specification for strings, and a value
    sliced: both are TypeError on [None]. *)
Definition to_text (v : option string) : result string :=
  of_option TypeError v.

(** [float(e['amount'])] *)
Definition amount_of (e : expense) : result float :=
  v ← getitem e "amount"; to_float v.

(** [e['category'] == category] *)
Definition in_category (category : string) (e : expense) : result bool :=
  v ← getitem e "category"; mret (bool_decide (v = Some category)).

(** *** The disk

    [EXPENSE_FILE] is absent, or a text file, or something that exists
    and cannot be opened (a directory, a file without permission). A text
    file may be damaged: [fault = Some k] says that reading it raises once
    [k] lines have been delivered, or at its end if it is shorter (an error
    of the device, bytes that the decoding of the text rejects). *)
Inductive file :=
| Regular (text : string) (fault : option nat)
| Blocked.

Definition disk := option file.

(** *** What the program prints *)
Inductive line :=
| Loaded (n : nat)
| ErrorLoading (e : exn)
| NoFile
| Saved
| ErrorSaving (e : exn)
| Today (date : string)
| CategoryItem (i : nat) (category : string)
| InvalidChoice                  (* not between 1 and 7 *)
| InvalidNumber
| AmountNotPositive
| InvalidAmount
| Added (category description : string) (amount : float)
| NoExpenses
| ExpenseRow (i : nat) (date category description : string) (amount : float)
| Total (total : float)
| CategoryCount (i : nat) (category : string) (count : nat) (total : float)
| CategoryTitle (category : string)
| NoneInCategory (category : string)
| CategoryRow (i : nat) (date description : string) (amount : float)
| TotalExpenses (total : float)
| Transactions (n : nat)
| Average (average : float)
| BreakdownRow (category : string) (count : nat) (amount percentage : float)
| NothingToDelete
| Deleted (description amount : option string)
| InvalidIndex (n : nat)         (* not between 1 and n *)
| InvalidDeleteInput.

(** *** Interaction

    A procedure reads from the lines typed and prints; it ends with a
    value or an exception. *)
Record run (A : Type) := Run {
  outcome : result A;
  unread : list string;
  printed : list line
}.
Arguments Run {A} outcome unread printed.
Arguments outcome {A} r.
Arguments unread {A} r.
Arguments printed {A} r.

Definition io (A : Type) : Type := list string -> run A.

Global Instance io_ret : MRet io := fun A a stdin => Run (Ok a) stdin [].

Global Instance io_bind : MBind io := fun A B k m stdin =>
  let r := m stdin in
  match outcome r with
  | Ok a =>
      let r' := k a (unread r) in
      Run (outcome r') (unread r') (printed r ++ printed r')
  | Raise e => Run (Raise e) (unread r) (printed r)
  end.

Definition print (l : line) : io unit := fun stdin => Run (Ok tt) stdin [l].

(** [input()] *)
Definition input : io string := fun stdin =>
  match stdin with
  | s :: stdin' => Run (Ok s) stdin' []
  | [] => Run (Raise EOFError) [] []
  end.

(** A computation that does not interact. *)
Definition lift {A} (m : result A) : io A := fun stdin => Run m stdin [].

(** A line printed before a run. *)
Definition say {A} (l : line) (r : run A) : run A :=
  Run (outcome r) (unread r) (l :: printed r).

(** [for x in xs: print(show x)] *)
Fixpoint print_each {A} (show : A -> result line) (xs : list A) : io unit :=
  match xs with
  | [] => mret tt
  | x :: xs' => l ← lift (show x); print l;; print_each show xs'
  end.

(** [enumerate(xs, 1)] *)
Definition enumerate {A} (xs : list A) : list (nat * A) :=
  zip (seq 1 (length xs)) xs.

(** *** load_expenses *)

(** The rows of the file as the loop of [load_expenses] meets them. *)
Definition rows_of (text : string) (fault : option nat) : trace expense :=
  match fault with
  | None => DictReader (splitlines text) None
  | Some k => DictReader (take k (splitlines text)) (Some OSError)
  end.

Definition load_expenses (d : disk) : list expense * list line :=
  let expenses := [] in
  match d with
  | Some f =>
      match f with
      | Regular text fault =>
          let t := rows_of text fault in
          let expenses := foldl (fun expenses row => expenses ++ [row]) expenses (items t) in
          match stopped t with
          | None => (expenses, [Loaded (length expenses)])
          | Some e => (expenses, [ErrorLoading e])
          end
      | Blocked => (expenses, [ErrorLoading OSError])
      end
  | None => (expenses, [NoFile])
  end.

(** *** save_expenses *)
Definition save_expenses (expenses : list expense) (d : disk) : disk * list line :=
  match d with
  | Some Blocked => (d, [ErrorSaving OSError])
  | _ =>
      let '(body, err) := writerows fieldnames expenses in
      (Some (Regular (writeheader fieldnames +:+ body) None),
       [match err with
        | None => Saved
        | Some e => ErrorSaving e
        end])
  end.

(** *** add_expense *)

Fixpoint ask_category (stdin : list string) : run string :=
  match stdin with
  | [] => Run (Raise EOFError) [] []
  | s :: stdin' =>
      match int s with
      | Some choice =>
          if (1 <=? choice) && (choice <=? 7)
          then Run (Ok (CATEGORIES !!! Z.to_nat (choice - 1))) stdin' []
          else say InvalidChoice (ask_category stdin')
      | None => say InvalidNumber (ask_category stdin')
      end
  end.

Fixpoint ask_amount (stdin : list string) : run float :=
  match stdin with
  | [] => Run (Raise EOFError) [] []
  | s :: stdin' =>
      match float_of_str s with
      | Some amount =>
          if fltb fzero amount
          then Run (Ok amount) stdin' []
          else say AmountNotPositive (ask_amount stdin')
      | None => say InvalidAmount (ask_amount stdin')
      end
  end.

Definition add_expense (today : string) (expenses : list expense)
  : io (list expense) :=
  let date := today in
  print (Today date);;
  print_each (fun ic => Ok (CategoryItem ic.1 ic.2)) (enumerate CATEGORIES);;
  category ← ask_category;
  description ← input;
  let description := strip description in
  let description :=
    if String.eqb description EmptyString then "No description" else description in
  amount ← ask_amount;
  let expense := mk_expense date category description (str_of_float amount) in
  let expenses := expenses ++ [expense] in
  print (Added category description amount);;
  _ ← input;
  mret expenses.

(** *** Totals and views *)

(** [sum(float(e['amount']) for e in expenses)]: the generator is consumed
    item by item, each amount is converted and added to the running sum. *)
Fixpoint sum_amounts (acc : float) (expenses : list expense) : result float :=
  match expenses with
  | [] => Ok acc
  | e :: expenses' => x ← amount_of e; sum_amounts (fadd acc x) expenses'
  end.

Definition total (expenses : list expense) : result float :=
  sum_amounts fzero expenses.

(** [[e for e in expenses if e['category'] == category]] *)
Fixpoint filter_by_category (category : string) (expenses : list expense)
  : result (list expense) :=
  match expenses with
  | [] => Ok []
  | e :: expenses' =>
      b ← in_category category e;
      rest ← filter_by_category category expenses';
      mret (if b : bool then e :: rest else rest)
  end.

Definition show_expense (ie : nat * expense) : result line :=
  date ← getitem ie.2 "date"; date ← to_text date;
  category ← getitem ie.2 "category"; category ← to_text category;
  description ← getitem ie.2 "description"; description ← to_text description;
  amount ← amount_of ie.2;
  mret (ExpenseRow ie.1 date category (slice_to 20 description) amount).

Definition view_all_expenses (expenses : list expense) : io unit :=
  match expenses with
  | [] => print NoExpenses
  | _ =>
      print_each show_expense (enumerate expenses);;
      t ← lift (total expenses);
      print (Total t)
  end;;
  _ ← input;
  mret tt.

(** [sum(1 for e in expenses if e['category'] == category)] *)
Fixpoint count_in (category : string) (acc : nat) (expenses : list expense)
  : result nat :=
  match expenses with
  | [] => Ok acc
  | e :: expenses' =>
      b ← in_category category e;
      count_in category (if b : bool then S acc else acc) expenses'
  end.

(** [sum(float(e['amount']) for e in expenses if e['category'] == category)] *)
Fixpoint sum_amounts_in (category : string) (acc : float)
    (expenses : list expense) : result float :=
  match expenses with
  | [] => Ok acc
  | e :: expenses' =>
      b ← in_category category e;
      if b : bool
      then x ← amount_of e; sum_amounts_in category (fadd acc x) expenses'
      else sum_amounts_in category acc expenses'
  end.

Definition show_count (expenses : list expense) (ic : nat * string)
  : result line :=
  count ← count_in ic.2 0%nat expenses;
  t ← sum_amounts_in ic.2 fzero expenses;
  mret (CategoryCount ic.1 ic.2 count t).

Definition show_in_category (ie : nat * expense) : result line :=
  date ← getitem ie.2 "date"; date ← to_text date;
  description ← getitem ie.2 "description"; description ← to_text description;
  amount ← amount_of ie.2;
  mret (CategoryRow ie.1 date (slice_to 30 description) amount).

Definition view_by_category (expenses : list expense) : io unit :=
  match expenses with
  | [] =>
      print NoExpenses;;
      _ ← input;
      mret tt
  | _ =>
      print_each (show_count expenses) (enumerate CATEGORIES);;
      selected_category ← ask_category;
      filtered ← lift (filter_by_category selected_category expenses);
      print (CategoryTitle (upper selected_category));;
      match filtered with
      | [] => print (NoneInCategory selected_category)
      | _ =>
          print_each show_in_category (enumerate filtered);;
          t ← lift (total filtered);
          print (Total t)
      end;;
      _ ← input;
      mret tt
  end.

(** One turn of the loop over the categories in [view_summary]. *)
Definition breakdown_row (expenses : list expense) (total : float)
    (category : string) : result (option line) :=
  category_expenses ← filter_by_category category expenses;
  match category_expenses with
  | [] => mret None
  | _ =>
      let count := length category_expenses in
      amount ← sum_amounts fzero category_expenses;
      ratio ← truediv amount total;
      let percentage := fmul ratio (float_of_Z 100) in
      mret (Some (BreakdownRow category count amount percentage))
  end.

Fixpoint breakdown (expenses : list expense) (total : float)
    (categories : list string) : io unit :=
  match categories with
  | [] => mret tt
  | category :: categories' =>
      row ← lift (breakdown_row expenses total category);
      match row with
      | Some l => print l
      | None => mret tt
      end;;
      breakdown expenses total categories'
  end.

Definition view_summary (expenses : list expense) : io unit :=
  match expenses with
  | [] => print NoExpenses
  | _ =>
      t ← lift (total expenses);
      print (TotalExpenses t);;
      print (Transactions (length expenses));;
      average ← lift (truediv_int t (Z.of_nat (length expenses)));
      print (Average average);;
      breakdown expenses t CATEGORIES
  end;;
  _ ← input;
  mret tt.

(** *** delete_expense *)

(** The body of the [try] once the choice is a number in range. *)
Definition remove_at (choice : Z) (expenses : list expense)
  : result (list expense * line) :=
  '(deleted, expenses) ← pop (Z.to_nat (choice - 1)) expenses;
  description ← getitem deleted "description";
  amount ← getitem deleted "amount";
  mret (expenses, Deleted description amount).

(** The loop of [delete_expense]; the flag tells whether it was left by
    the [return] of the cancellation rather than by [break]. *)
Fixpoint ask_index (expenses : list expense) (stdin : list string)
  : run (list expense * bool) :=
  match stdin with
  | [] => Run (Raise EOFError) [] []
  | choice :: stdin' =>
      if String.eqb (lower choice) "c" then Run (Ok (expenses, true)) stdin' []
      else
        match int choice with
        | Some choice =>
            if (1 <=? choice) && (choice <=? Z.of_nat (length expenses)) then
              match remove_at choice expenses with
              | Ok (expenses, l) => Run (Ok (expenses, false)) stdin' [l]
              | Raise e => Run (Raise e) stdin' []
              end
            else say (InvalidIndex (length expenses)) (ask_index expenses stdin')
        | None => say InvalidDeleteInput (ask_index expenses stdin')
        end
  end.

Definition delete_expense (expenses : list expense) : io (list expense) :=
  match expenses with
  | [] =>
      print NothingToDelete;;
      _ ← input;
      mret expenses
  | _ =>
      print_each show_expense (enumerate expenses);;
      '(expenses, cancelled) ← ask_index expenses;
      if cancelled : bool then mret expenses
      else _ ← input; mret expenses
  end.

(** *** main

    What [main] and [main_menu] print themselves, beside the lines of the
    procedures they call. *)
Inductive notice :=
| Welcome
| MainMenu
| Shown (l : line)
| InvalidMenuChoice
| ThankYou.

(** How a session ends: normally, after Save and Exit, or by the exception
    that escapes [main]; the value of [expenses] when the loop was left (on
    an exception, before the call that raised); the disk; the lines typed
    that were not read; what was printed. *)
Record session := Session {
  status : result unit;
  kept : list expense;
  stored : disk;
  pending : list string;
  shown : list notice
}.

Definition announce (ns : list notice) (s : session) : session :=
  Session (status s) (kept s) (stored s) (pending s) (ns ++ shown s).

(** One call made from the loop, after the menu: the loop goes on with its
    result, or the exception ends the session. *)
Definition after {A} (r : run A) (expenses : list expense) (d : disk)
    (continue : A -> list string -> option session) : option session :=
  match outcome r with
  | Ok a => announce (MainMenu :: map Shown (printed r)) <$> continue a (unread r)
  | Raise e =>
      Some (Session (Raise e) expenses d (unread r)
                    (MainMenu :: map Shown (printed r)))
  end.

(** The loop of [main], each turn of which begins with [main_menu]: the
    menu is printed and a line is read. [clock n] is the date at the turn
    [n] of the loop; [fuel] bounds the number of turns ([None] when it is
    used up). *)
Fixpoint main_loop (fuel : nat) (clock : nat -> string) (turn : nat)
    (expenses : list expense) (d : disk) (stdin : list string)
  : option session :=
  match fuel with
  | O => None
  | S fuel' =>
      let next expenses stdin := main_loop fuel' clock (S turn) expenses d stdin in
      match stdin with
      | [] => Some (Session (Raise EOFError) expenses d [] [MainMenu])
      | choice :: stdin' =>
          if String.eqb choice "1" then
            after (add_expense (clock turn) expenses stdin') expenses d next
          else if String.eqb choice "2" then
            after (view_all_expenses expenses stdin') expenses d
                  (fun _ => next expenses)
          else if String.eqb choice "3" then
            after (view_by_category expenses stdin') expenses d
                  (fun _ => next expenses)
          else if String.eqb choice "4" then
            after (view_summary expenses stdin') expenses d
                  (fun _ => next expenses)
          else if String.eqb choice "5" then
            after (delete_expense expenses stdin') expenses d next
          else if String.eqb choice "6" then
            let '(d', ls) := save_expenses expenses d in
            Some (Session (Ok tt) expenses d' stdin'
                          (MainMenu :: map Shown ls ++ [ThankYou]))
          else
            match stdin' with
            | [] =>
                Some (Session (Raise EOFError) expenses d []
                              [MainMenu; InvalidMenuChoice])
            | _ :: stdin'' =>
                announce [MainMenu; InvalidMenuChoice] <$> next expenses stdin''
            end
      end
  end.

(** [main]: every turn of the loop reads a line, so that the loop makes no
    more turns than there are lines typed. *)
Definition main (clock : nat -> string) (d : disk) (stdin : list string)
  : option session :=
  let '(expenses, ls) := load_expenses d in
  match stdin with
  | [] => Some (Session (Raise EOFError) expenses d [] (Welcome :: map Shown ls))
  | _ :: stdin' =>
      announce (Welcome :: map Shown ls)
        <$> main_loop (S (length stdin')) clock 0 expenses d stdin'
  end.

End Tracker.

Import Py Csv Tracker.

(** ** Notions used in the statements *)

(** A record that has a category field, and one whose category is the one
    given. *)
Definition has_category (e : expense) : Prop := is_Some (named e !! "category").

Definition category_is (category : string) (e : expense) : Prop :=
  named e !! "category" = Some (Some category).

Global Instance category_is_dec category e : Decision (category_is category e).
Proof. unfold category_is. apply _. Defined.

(** A collection of three records. *)
Definition sample : list expense :=
  [mk_expense "2024-05-01" "Food" "lunch" "12.5";
   mk_expense "2024-05-02" "Bills" "rent" "900.0";
   mk_expense "2024-05-03" "Food" "dinner, with friends" "30.25"].

(** A record that the table of expenses can show. *)
Definition displayable (e : expense) : Prop :=
  succeeded (show_expense (0%nat, e)) = true.

(** The invariant of the records: a category of the fixed set, an amount
    greater than 0. *)
Definition category_known (e : expense) : Prop :=
  exists c, named e !! "category" = Some (Some c) /\ c ∈ CATEGORIES.

Definition amount_positive (e : expense) : Prop :=
  exists x, amount_of e = Ok x /\ fltb fzero x = true.

Definition valid_record (e : expense) : Prop :=
  category_known e /\ amount_positive e.

(** The description as [add_expense] stores it. *)
Definition stored_description (typed : string) : string :=
  if String.eqb (strip typed) EmptyString then "No description" else strip typed.

(** A file written by another hand. *)
Definition foreign_text : string :=
  "date,category,description,amount" +:+ lineterminator +:+
  "2024-05-01,Misc,gift,-5" +:+ lineterminator.

(** A file of two records whose reading fails after the second line. *)
Definition damaged_file : file :=
  Regular ("date,category,description,amount" +:+ lineterminator +:+
           "2024-05-01,Food,lunch,12.5" +:+ lineterminator +:+
           "2024-05-02,Bills,rent,900.0" +:+ lineterminator)
          (Some 2%nat).

(** A record as the data model has it: four fields, all strings. *)
Definition plain (e : expense) : Prop :=
  exists date category description amount,
    e = mk_expense date category description amount.

(** The parser [p'] has read the field [f] that began in [p]: the
    delimiter that follows completes it. *)
Definition field_read (p p' : parser) (f : string) : Prop :=
  parse_process_char p' (Some comma)
    = Ok (Parser START_FIELD EmptyString (fields p ++ [f])) /\
  (state p = START_FIELD \/ f <> EmptyString ->
   parse_process_char p' (Some CR)
     = Ok (Parser EAT_CRNL EmptyString (fields p ++ [f]))).

(** The fields of a plain record, in the order of the header. *)
Definition values_of (r : string * string * string * string) : list string :=
  let '(date, category, description, amount) := r in
  [date; category; description; amount].

Definition expense_of (r : string * string * string * string) : expense :=
  let '(date, category, description, amount) := r in
  mk_expense date category description amount.

(** The amounts of a collection, converted. *)
Fixpoint amounts (es : list expense) : result (list float) :=
  match es with
  | [] => Ok []
  | e :: es' => x ← amount_of e; xs ← amounts es'; mret (x :: xs)
  end.

(** The amount of a record whose amount converts. *)
Definition amount_value (e : expense) : float :=
  match amount_of e with
  | Ok x => x
  | Raise _ => fzero
  end.

(** A float that is a number of binary64, and its value counted in units of
    2^-1074, the smallest positive float. *)
Definition representable (x : float) : bool :=
  match x with
  | S754_zero _ => true
  | S754_finite _ _ e => -1074 <=? e
  | _ => false
  end.

Definition scaled (x : float) : Z :=
  match x with
  | S754_finite s m e => (if s then -1 else 1) * (Zpos m * 2 ^ (e + 1074))
  | _ => 0
  end.

(** The addition of [x] and [y] is not rounded. *)
Definition exact_add (x y : float) : bool :=
  representable x && representable y && representable (fadd x y)
  && (scaled (fadd x y) =? scaled x + scaled y).

(** None of the additions made by [sum] from [acc] on is rounded. *)
Fixpoint exact_sum (acc : float) (xs : list float) : bool :=
  match xs with
  | [] => true
  | x :: xs' => exact_add acc x && exact_sum (fadd acc x) xs'
  end.

(** Four amounts, in two orders. *)
Definition big_first : list expense :=
  [mk_expense "2024-05-01" "Food" "a" "9007199254740992.0";
   mk_expense "2024-05-01" "Food" "b" "1.0";
   mk_expense "2024-05-01" "Food" "c" "1.1102230246251565e-16";
   mk_expense "2024-05-01" "Food" "d" "1.1102230246251565e-16"].

Definition small_first : list expense := reverse big_first.

(** The percentages shown by the breakdown. *)
Definition percentages (ls : list line) : list float :=
  flat_map (fun l => match l with
                     | BreakdownRow _ _ _ percentage => [percentage]
                     | _ => []
                     end) ls.

(** The records of a category. *)
Definition records_in (es : list expense) (category : string) : list expense :=
  filter (category_is category) es.

(** The categories of the fixed set that have a record, in declared order. *)
Definition present (es : list expense) : list string :=
  filter (fun category => records_in es category <> []) CATEGORIES.

(** The line of the breakdown for a category that has records. *)
Definition breakdown_line (es : list expense) (t : float) (category : string) : line :=
  let amount := Py.sum (map amount_value (records_in es category)) in
  BreakdownRow category (length (records_in es category)) amount
    (fmul (SFdiv prec emax amount t) (float_of_Z 100)).

(** The amounts of a list of records, added without rounding (in units of
    2^-1074), and the percentage of a category computed without rounding. *)
Definition exact_total (es : list expense) : Z :=
  foldr Z.add 0 (map (fun e => scaled (amount_value e)) es).

Definition exact_percentage (es : list expense) (category : string) : Q :=
  (100 * (inject_Z (exact_total (records_in es category)) / inject_Z (exact_total es)))%Q.

Definition sumQ (qs : list Q) : Q := foldr Qplus 0%Q qs.

(** A record of an unknown category next to one of the fixed set; a record
    with the amount inf, which add accepts. *)
Definition with_foreign : list expense :=
  [mk_expense "2024-05-01" "Food" "lunch" "50.0";
   mk_expense "2024-05-02" "Misc" "gift" "50.0"].

Definition with_inf : list expense :=
  [mk_expense "2024-05-01" "Food" "gold" "inf"].

Definition sample_amounts : list float :=
  [S754_finite false 7036874417766400 (-49);
   S754_finite false 7916483719987200 (-43);
   S754_finite false 8514618045497344 (-48)].

(** ** Notions used for the rest of the program *)

(** A text within what the embedding of the reader covers: it has no NUL
    character, and it is not so long that one of its fields could pass the
    limit of the csv module (131072 characters). *)
Fixpoint has_nul (s : string) : bool :=
  match s with
  | EmptyString => false
  | String c s' => Ascii.eqb c "000"%char || has_nul s'
  end.

Definition within_reader_limits (text : string) : Prop :=
  Z.of_nat (String.length text) <= 131072 /\ has_nul text = false.

(** The text that [save_expenses] writes for plain records. *)
Definition saved_text (rs : list (string * string * string * string)) : string :=
  join_fields fieldnames +:+ lineterminator +:+
  foldr (fun r text => join_fields (values_of r) +:+ lineterminator +:+ text)
        EmptyString rs.

(** A record that [DictWriter] accepts: no key outside the field names. *)
Definition writable (e : expense) : Prop :=
  dom (named e) ⊆ list_to_set fieldnames /\ extra e = None.

(** An answer that the category prompt rejects, one that the amount prompt
    rejects, one that the prompt of delete rejects, and what is printed
    for each. *)
Definition bad_choice (s : string) : bool :=
  match int s with
  | Some choice => negb ((1 <=? choice) && (choice <=? 7))
  | None => true
  end.

Definition bad_amount (s : string) : bool :=
  match float_of_str s with
  | Some amount => negb (fltb fzero amount)
  | None => true
  end.

Definition bad_index (es : list expense) (s : string) : bool :=
  negb (String.eqb (lower s) "c")
  && match int s with
     | Some choice => negb ((1 <=? choice) && (choice <=? Z.of_nat (length es)))
     | None => true
     end.

Definition choice_rejection (s : string) : line :=
  match int s with
  | Some _ => InvalidChoice
  | None => InvalidNumber
  end.

Definition amount_rejection (s : string) : line :=
  match float_of_str s with
  | Some _ => AmountNotPositive
  | None => InvalidAmount
  end.

Definition index_rejection (es : list expense) (s : string) : line :=
  match int s with
  | Some _ => InvalidIndex (length es)
  | None => InvalidDeleteInput
  end.

(** The list of categories as [add_expense] prints it. *)
Definition category_menu : list line :=
  map (fun ic : nat * string => CategoryItem ic.1 ic.2) (enumerate CATEGORIES).

(** A collection with a record whose amount is not a number, as load
    returns it from a file edited by hand; two records whose amounts
    cancel out. *)
Definition with_text_amount : list expense :=
  [mk_expense "2024-05-01" "Food" "lunch" "12.5";
   mk_expense "2024-05-02" "Bills" "rent" "nine hundred"].

Definition cancelling : list expense :=
  [mk_expense "2024-05-01" "Food" "lunch" "5.0";
   mk_expense "2024-05-02" "Food" "refund" "-5.0"].

(** The text under a key of a record that has it. *)
Definition text_of (e : expense) (key : string) : string :=
  match named e !! key with
  | Some (Some s) => s
  | _ => EmptyString
  end.

(** The rows of the two tables for a numbered record, and the line of a
    category in the list of [view_by_category]. *)
Definition table_row (ie : nat * expense) : line :=
  ExpenseRow ie.1 (text_of ie.2 "date") (text_of ie.2 "category")
    (slice_to 20 (text_of ie.2 "description")) (amount_value ie.2).

Definition category_row (ie : nat * expense) : line :=
  CategoryRow ie.1 (text_of ie.2 "date")
    (slice_to 30 (text_of ie.2 "description")) (amount_value ie.2).

Definition count_line (es : list expense) (ic : nat * string) : line :=
  CategoryCount ic.1 ic.2 (length (records_in es ic.2))
    (Py.sum (map amount_value (records_in es ic.2))).

(** A procedure reads the lines typed in their order: what it leaves
    unread is an end of what it was given. *)
Definition forward {A} (m : io A) : Prop :=
  forall stdin, unread (m stdin) `suffix_of` stdin.

(** What holds of a session that began with the collection [es], the disk
    [d] and the lines [stdin]. *)
Definition session_of (es : list expense) (d : disk) (stdin : list string)
    (s : session) : Prop :=
  pending s `suffix_of` stdin /\
  (forall e, status s = Raise e -> stored s = d) /\
  (status s = Ok tt ->
   stored s = (save_expenses (kept s) d).1 /\ "6" ∈ stdin) /\
  (Forall plain es -> Forall plain (kept s)).

(** A session of one day: two records added, the first deleted, then Save
    and Exit; and how it ends. *)
Definition one_day : nat -> string := fun _ => "2024-05-01".

Definition typed_session : list string :=
  [""; "1"; "1"; "lunch, quick"; "12.5"; ""; "1"; "4"; ""; "900"; "";
   "5"; "1"; ""; "6"].

Definition ended_session : session :=
  Session (Ok tt) [mk_expense "2024-05-01" "Bills" "No description" "900.0"]
    (Some (Regular (saved_text
             [("2024-05-01", "Bills", "No description", "900.0")]) None))
    []
    ([Welcome; Shown NoFile; MainMenu; Shown (Today "2024-05-01")]
     ++ map Shown category_menu
     ++ [Shown (Added "Food" "lunch, quick"
                  (S754_finite false 7036874417766400 (-49)));
         MainMenu; Shown (Today "2024-05-01")]
     ++ map Shown category_menu
     ++ [Shown (Added "Bills" "No description"
                  (S754_finite false 7916483719987200 (-43)));
         MainMenu;
         Shown (ExpenseRow 1 "2024-05-01" "Food" "lunch, quick"
                  (S754_finite false 7036874417766400 (-49)));
         Shown (ExpenseRow 2 "2024-05-01" "Bills" "No description"
                  (S754_finite false 7916483719987200 (-43)));
         Shown (Deleted (Some "lunch, quick") (Some "12.5"));
         MainMenu; Shown Saved; ThankYou]).

(** * Properties *)

(** ** Running procedures *)

Section Running.
Context {A B : Type}.

Lemma run_bind_ok (m : io A) (k : A -> io B) stdin a :
  outcome (m stdin) = Ok a ->
  (m ≫= k) stdin =
    Run (outcome (k a (unread (m stdin)))) (unread (k a (unread (m stdin))))
        (printed (m stdin) ++ printed (k a (unread (m stdin)))).
Proof. intros H. unfold mbind, io_bind. now rewrite H. Qed.

Lemma run_print (l : line) (k : io B) stdin :
  (print l ≫= fun _ => k) stdin =
    Run (outcome (k stdin)) (unread (k stdin)) (l :: printed (k stdin)).
Proof. reflexivity. Qed.

Lemma run_lift_ok (m : result A) (k : A -> io B) stdin a :
  m = Ok a ->
  (lift m ≫= k) stdin = k a stdin.
Proof. intros ->. unfold mbind, io_bind, lift. simpl. now destruct (k a stdin). Qed.
Lemma run_bind_inv (m : io A) (k : A -> io B) stdin b :
  outcome ((m ≫= k) stdin) = Ok b ->
  exists a, outcome (m stdin) = Ok a /\ outcome (k a (unread (m stdin))) = Ok b.
Proof.
  unfold mbind, io_bind. destruct (outcome (m stdin)) as [a|e]; simpl; [eauto|discriminate].
Qed.

Lemma outcome_bind (m : io A) (k : A -> io B) stdin a stdin' :
  outcome (m stdin) = Ok a ->
  unread (m stdin) = stdin' ->
  outcome ((m ≫= k) stdin) = outcome (k a stdin').
Proof. intros H1 H2. unfold mbind, io_bind. now rewrite H1, H2. Qed.

Lemma printed_bind (m : io A) (k : A -> io B) stdin :
  exists rest, printed ((m ≫= k) stdin) = printed (m stdin) ++ rest.
Proof.
  unfold mbind, io_bind. destruct (outcome (m stdin)); simpl; [eauto|].
  exists []. now rewrite app_nil_r.
Qed.
End Running.

(** One step of a procedure whose first action is known to succeed. *)
Ltac run_step tac :=
  erewrite outcome_bind;
  [| tac; cbn [outcome unread]; reflexivity
   | tac; cbn [outcome unread]; reflexivity].

(** ** Loading when there is no file *)

(** C7. If the backing file does not exist, load returns an empty
    collection and reports no error: the only line printed is the notice
    that no file was found. *)
Theorem load_without_file :
  load_expenses None = ([], [NoFile]).
Proof. reflexivity. Qed.

(** ** Filtering by category *)

Lemma in_category_spec category e :
  has_category e ->
  in_category category e = Ok (bool_decide (category_is category e)).
Proof.
  intros [v Hv]. unfold in_category, getitem.
  rewrite Hv. simpl. f_equal. apply bool_decide_ext.
  unfold category_is. rewrite Hv. split; congruence.
Qed.

Lemma filter_by_category_spec category es :
  Forall has_category es ->
  filter_by_category category es = Ok (filter (category_is category) es).
Proof.
  induction 1 as [|e es He Hes IH]; [reflexivity|].
  simpl. rewrite (in_category_spec _ _ He). simpl. rewrite IH. simpl.
  rewrite filter_cons. unfold mret, result_ret.
  destruct (decide (category_is category e)) as [Hc|Hc].
  - now rewrite (bool_decide_eq_true_2 _ Hc).
  - now rewrite (bool_decide_eq_false_2 _ Hc).
Qed.

(** C5. On a collection whose records all have a category field, the
    comprehension of view_by_category returns exactly the records whose
    category equals the one selected, in their original relative order (it
    is the order-preserving filter of the collection, hence a sublist of it),
    and its length plus the number of records of another category is the
    length of the collection. *)
Theorem filter_by_category_correct (category : string) (es : list expense) :
  Forall has_category es ->
  exists filtered,
    filter_by_category category es = Ok filtered /\
    filtered = filter (category_is category) es /\
    (forall e, e ∈ filtered <-> e ∈ es /\ category_is category e) /\
    filtered `sublist_of` es /\
    (length filtered + length (filter (fun e => ~ category_is category e) es)
     = length es)%nat.
Proof.
  intros Hes. exists (filter (category_is category) es).
  split; [now apply filter_by_category_spec|].
  split; [reflexivity|].
  split; [intros e; rewrite list_elem_of_filter; tauto|].
  split; [apply sublist_filter|].
  clear Hes. induction es as [|e es IH]; [reflexivity|].
  rewrite !filter_cons.
  destruct (decide (category_is category e)); destruct (decide (~ category_is category e));
    simpl; try tauto; lia.
Qed.

Lemma filter_by_category_correct_witness :
  Forall has_category sample /\
  exists filtered,
    filter_by_category "Food" sample = Ok filtered /\
    filtered = filter (category_is "Food") sample /\
    (forall e, e ∈ filtered <-> e ∈ sample /\ category_is "Food" e) /\
    filtered `sublist_of` sample /\
    (length filtered + length (filter (fun e => ~ category_is "Food" e) sample)
     = length sample)%nat.
Proof.
  assert (H : Forall has_category sample)
    by (repeat constructor; vm_compute; eauto).
  split; [exact H | exact (filter_by_category_correct "Food" sample H)].
Defined.

(** ** Printing the table of expenses *)

Lemma succeeded_ok {A} (m : result A) : succeeded m = true -> exists a, m = Ok a.
Proof. destruct m; simpl; [eauto | discriminate]. Qed.

Lemma show_expense_index i j e :
  succeeded (show_expense (i, e)) = succeeded (show_expense (j, e)).
Proof.
  unfold show_expense; simpl.
  repeat match goal with
         | |- context [?m ≫= _] =>
             lazymatch m with
             | _ ≫= _ => fail
             | _ => destruct m; simpl; try reflexivity
             end
         end.
Qed.

Lemma displayable_fields e :
  displayable e ->
  exists description amount,
    getitem e "description" = Ok description /\ getitem e "amount" = Ok amount.
Proof.
  unfold displayable, show_expense, amount_of; simpl.
  destruct (getitem e "date") as [v1|]; simpl; [|discriminate].
  destruct (to_text v1); simpl; [|discriminate].
  destruct (getitem e "category") as [v2|]; simpl; [|discriminate].
  destruct (to_text v2); simpl; [|discriminate].
  destruct (getitem e "description") as [v3|]; simpl; [|discriminate].
  destruct (to_text v3); simpl; [|discriminate].
  destruct (getitem e "amount") as [v4|]; simpl; [|discriminate].
  eauto.
Qed.

Lemma print_each_ok {A} (show : A -> result line) xs stdin :
  Forall (fun x => succeeded (show x) = true) xs ->
  outcome (print_each show xs stdin) = Ok tt /\
  unread (print_each show xs stdin) = stdin.
Proof.
  induction 1 as [|x xs Hx Hxs IH]; [now split|].
  simpl. apply succeeded_ok in Hx as [l Hl].
  rewrite (run_lift_ok _ _ _ _ Hl), run_print. simpl. exact IH.
Qed.

Lemma enumerate_displayable es :
  Forall displayable es ->
  Forall (fun ie => succeeded (show_expense ie) = true) (enumerate es).
Proof.
  intros Hes. unfold enumerate. generalize 1%nat as k.
  induction Hes as [|e es He Hes IH]; intros k; simpl; constructor.
  - rewrite (show_expense_index k 0 e). exact He.
  - apply IH.
Qed.

(** ** Deleting *)

Lemma lower_char_c ch : lower_char ch = "c"%char -> ch = "c"%char \/ ch = "C"%char.
Proof.
  destruct ch as [[] [] [] [] [] [] [] []]; vm_compute; intros H;
    first [discriminate H | now left | now right].
Qed.

Lemma cancel_not_a_number s : lower s = "c" -> int s = None.
Proof.
  destruct s as [|ch [|? ?]]; simpl; try discriminate.
  intros H. injection H as H. destruct (lower_char_c _ H) as [-> | ->]; reflexivity.
Qed.

Lemma number_not_cancel s i : int s = Some i -> String.eqb (lower s) "c" = false.
Proof.
  intros Hi. destruct (String.eqb (lower s) "c") eqn:E; [|reflexivity].
  apply String.eqb_eq in E. rewrite (cancel_not_a_number _ E) in Hi. discriminate.
Qed.

Lemma remove_at_ok es i :
  Forall displayable es ->
  1 <= i <= Z.of_nat (length es) ->
  exists l, remove_at i es = Ok (delete (Z.to_nat (i - 1)) es, l).
Proof.
  intros Hes Hi. unfold remove_at, pop.
  destruct (lookup_lt_is_Some_2 es (Z.to_nat (i - 1))) as [deleted Hd]; [lia|].
  rewrite Hd. simpl.
  assert (Hdis : displayable deleted).
  { rewrite Forall_forall in Hes. apply Hes. eapply list_elem_of_lookup_2. exact Hd. }
  destruct (displayable_fields _ Hdis) as (d & a & -> & ->). simpl. eauto.
Qed.

Lemma delete_expense_nonempty e es stdin :
  Forall displayable (e :: es) ->
  outcome (delete_expense (e :: es) stdin) =
    match outcome (ask_index (e :: es) stdin) with
    | Ok (expenses, true) => Ok expenses
    | Ok (expenses, false) =>
        match unread (ask_index (e :: es) stdin) with
        | [] => Raise EOFError
        | _ :: _ => Ok expenses
        end
    | Raise x => Raise x
    end.
Proof.
  intros Hes. unfold delete_expense.
  destruct (print_each_ok show_expense (enumerate (e :: es)) stdin
              (enumerate_displayable _ Hes)) as [H1 H2].
  rewrite (run_bind_ok _ _ _ _ H1). rewrite H2. cbn [outcome].
  unfold mbind, io_bind.
  destruct (outcome (ask_index (e :: es) stdin)) as [[expenses [|]]|x]; simpl; try reflexivity.
  destruct (unread (ask_index (e :: es) stdin)); reflexivity.
Qed.

(** C10. Entering the cancel input at the delete prompt, in either case,
    gives the collection back unchanged: the list returned is the list
    given. (On an empty collection there is no prompt and the list is
    returned as well.) The records are those that the table printed before
    the prompt can show. *)
Theorem delete_cancel (es : list expense) (choice : string) (stdin : list string) :
  Forall displayable es ->
  lower choice = "c" ->
  outcome (delete_expense es (choice :: stdin)) = Ok es.
Proof.
  intros Hes Hc. destruct es as [|e es]; [reflexivity|].
  rewrite (delete_expense_nonempty _ _ _ Hes). simpl.
  apply String.eqb_eq in Hc. now rewrite Hc.
Qed.

Lemma delete_cancel_witness :
  (Forall displayable sample /\ lower "C" = "c") /\
  outcome (delete_expense sample ["C"; "1"]) = Ok sample.
Proof.
  assert (H : Forall displayable sample) by (repeat constructor).
  split; [split; [exact H | reflexivity]|].
  exact (delete_cancel sample "C" ["1"] H eq_refl).
Defined.



(** ** The summary *)

Lemma summary_head e es t stdin :
  total (e :: es) = Ok t ->
  exists rest,
    printed ((t ← lift (total (e :: es));
              print (TotalExpenses t);;
              print (Transactions (length (e :: es)));;
              average ← lift (truediv_int t (Z.of_nat (length (e :: es))));
              print (Average average);;
              breakdown (e :: es) t CATEGORIES) stdin)
    = TotalExpenses t :: Transactions (length (e :: es))
        :: Average (SFdiv prec emax t (float_of_Z (Z.of_nat (length (e :: es)))))
        :: rest.
Proof.
  intros Ht. rewrite (run_lift_ok _ _ _ _ Ht), !run_print.
  assert (Hd : truediv_int t (Z.of_nat (length (e :: es)))
               = Ok (SFdiv prec emax t (float_of_Z (Z.of_nat (length (e :: es)))))).
  { unfold truediv_int. simpl length. now rewrite Nat2Z.inj_succ, (proj2 (Z.eqb_neq _ _)) by lia. }
  rewrite (run_lift_ok _ _ _ _ Hd), run_print. cbn [printed]. eauto.
Qed.



(** ** The invariant of the records *)

Lemma ask_category_known stdin c :
  outcome (ask_category stdin) = Ok c -> c ∈ CATEGORIES.
Proof.
  induction stdin as [|s stdin IH]; simpl; [discriminate|].
  destruct (int s) as [choice|]; [|exact IH].
  destruct ((1 <=? choice) && (choice <=? 7)) eqn:Hr; [|exact IH].
  simpl. intros [= <-].
  apply andb_prop in Hr as [H1%Z.leb_le H2%Z.leb_le].
  assert (Hn : (Z.to_nat (choice - 1) < 7)%nat) by lia.
  destruct (Z.to_nat (choice - 1)) as [|[|[|[|[|[|[|n]]]]]]]; [..|lia];
    vm_compute; repeat first [apply list_elem_of_here | apply list_elem_of_further].
Qed.

Lemma ask_amount_positive stdin x :
  outcome (ask_amount stdin) = Ok x -> fltb fzero x = true.
Proof.
  induction stdin as [|s stdin IH]; simpl; [discriminate|].
  destruct (float_of_str s) as [amount|]; [|exact IH].
  destruct (fltb fzero amount) eqn:Hp; [|exact IH].
  simpl. now intros [= <-].
Qed.

Lemma new_record_known today category description x :
  category ∈ CATEGORIES ->
  category_known (mk_expense today category description (str_of_float x)).
Proof. intros Hc. exists category. split; [reflexivity | exact Hc]. Qed.

Lemma new_record_positive today category description x :
  fltb fzero x = true ->
  float_of_str (str_of_float x) = Some x ->
  amount_positive (mk_expense today category description (str_of_float x)).
Proof.
  intros Hx Hrt. exists x. split; [|exact Hx].
  unfold amount_of, getitem, mk_expense. cbn [named].
  rewrite lookup_insert_eq. simpl. now rewrite Hrt.
Qed.




(** ** Loading a file that cannot be read to its end *)

Lemma append_each {A} (acc l : list A) :
  foldl (fun acc x => acc ++ [x]) acc l = acc ++ l.
Proof.
  revert acc. induction l as [|x l IH]; intros acc; simpl.
  - now rewrite app_nil_r.
  - now rewrite IH, <- app_assoc.
Qed.

Lemma reader_from_prefix lines p k e :
  items (reader_from p (take k lines) (Some e))
    `prefix_of` items (reader_from p lines None).
Proof.
  revert p k. induction lines as [|l lines IH]; intros p k.
  - rewrite take_nil. apply prefix_nil.
  - destruct k as [|k]; [apply prefix_nil|]. simpl.
    destruct (parse_line p l) as [p'|x]; [|apply prefix_nil].
    destruct (bool_decide (state p' = START_RECORD)).
    + simpl. apply prefix_cons, IH.
    + apply IH.
Qed.

Lemma reader_from_stopped lines p e :
  exists e', stopped (reader_from p lines (Some e)) = Some e'.
Proof.
  revert p. induction lines as [|l lines IH]; intros p; simpl; [eauto|].
  destruct (parse_line p l) as [p'|x]; [|simpl; eauto].
  destruct (bool_decide (state p' = START_RECORD)); [simpl|]; apply IH.
Qed.

Lemma reader_from_short lines p e :
  (length lines <= 1)%nat ->
  (length (items (reader_from p lines (Some e))) <= 1)%nat.
Proof.
  destruct lines as [|l [|l' lines]]; simpl; intros H; [lia| |lia].
  destruct (parse_line p l) as [p'|x]; [|simpl; lia].
  destruct (bool_decide (state p' = START_RECORD)); simpl; lia.
Qed.

Lemma DictReader_prefix lines k e :
  items (DictReader (take k lines) (Some e))
    `prefix_of` items (DictReader lines None).
Proof.
  unfold DictReader, reader.
  destruct (reader_from_prefix lines parse_reset k e) as [more Hmore].
  rewrite Hmore.
  destruct (items (reader_from parse_reset (take k lines) (Some e))) as [|h rows];
    [apply prefix_nil|].
  simpl. rewrite filter_app, map_app. now eexists.
Qed.



(** ** Strings *)

Lemma append_cons c s t : String c s +:+ t = String c (s +:+ t).
Proof. reflexivity. Qed.

Lemma append_nil_r s : s +:+ EmptyString = s.
Proof. induction s as [|c s IH]; [reflexivity|]. now rewrite append_cons, IH. Qed.

Lemma append_assoc s t u : (s +:+ t) +:+ u = s +:+ (t +:+ u).
Proof. induction s as [|c s IH]; [reflexivity|]. now rewrite !append_cons, IH. Qed.

Lemma append_snoc s c t : (s +:+ String c EmptyString) +:+ t = s +:+ String c t.
Proof. now rewrite append_assoc. Qed.

(** ** The reader on the text the writer produces *)

Lemma feed_app p s t : feed p (s +:+ t) = feed p s ≫= fun p' => feed p' t.
Proof.
  revert p. induction s as [|c s IH]; intros p; [reflexivity|].
  rewrite append_cons. simpl.
  destruct (parse_process_char p (Some c)) as [p'|e]; simpl; [apply IH | reflexivity].
Qed.

Lemma feed_snoc p0 cur p c p' :
  feed p0 cur = Ok p ->
  parse_process_char p (Some c) = Ok p' ->
  feed p0 (cur +:+ String c EmptyString) = Ok p'.
Proof. intros H1 H2. rewrite feed_app, H1. simpl. now rewrite H2. Qed.

Lemma special_newline c : special c = false -> is_newline c = false.
Proof.
  unfold special, is_newline.
  destruct (Ascii.eqb c comma), (Ascii.eqb c dquote), (Ascii.eqb c CR), (Ascii.eqb c LF);
    simpl; congruence.
Qed.

Lemma splitlines_char cur c t :
  is_newline c = false ->
  splitlines_from cur (String c t) = splitlines_from (cur +:+ String c EmptyString) t.
Proof.
  unfold is_newline. intros H. apply orb_false_elim in H as [H1 H2].
  simpl. now rewrite H1, H2.
Qed.

Lemma splitlines_plain f cur t :
  has_special f = false ->
  splitlines_from cur (f +:+ t) = splitlines_from (cur +:+ f) t.
Proof.
  revert cur. induction f as [|c f IH]; intros cur H.
  - now rewrite append_nil_r.
  - simpl in H. apply orb_false_elim in H as [Hc Hf].
    rewrite append_cons, splitlines_char by now apply special_newline.
    rewrite IH by exact Hf. now rewrite append_snoc.
Qed.

Lemma splitlines_LF cur t :
  splitlines_from cur (String LF t)
  = (cur +:+ String LF EmptyString) :: splitlines t.
Proof. reflexivity. Qed.

Lemma splitlines_CRLF cur t :
  splitlines_from cur (String CR (String LF t))
  = (cur +:+ lineterminator) :: splitlines t.
Proof. reflexivity. Qed.

Lemma splitlines_CR cur c t :
  Ascii.eqb c LF = false ->
  splitlines_from cur (String CR (String c t))
  = (cur +:+ String CR EmptyString) :: splitlines (String c t).
Proof. intros H. unfold splitlines. simpl. now rewrite H. Qed.

Lemma reader_continue p l ls fault p' :
  parse_line p l = Ok p' ->
  state p' <> START_RECORD ->
  reader_from p (l :: ls) fault = reader_from p' ls fault.
Proof.
  intros H1 H2. simpl. rewrite H1.
  now rewrite bool_decide_eq_false_2 by exact H2.
Qed.

Lemma reader_yield p l ls fault p' :
  parse_line p l = Ok p' ->
  state p' = START_RECORD ->
  reader_from p (l :: ls) fault = yield (fields p') (reader ls fault).
Proof.
  intros H1 H2. simpl. rewrite H1.
  now rewrite bool_decide_eq_true_2 by exact H2.
Qed.

(** Inside a quoted field every character but the quote is kept. *)
Lemma quoted_char p c :
  state p = IN_QUOTED_FIELD ->
  Ascii.eqb c dquote = false ->
  parse_process_char p (Some c)
  = Ok (Parser IN_QUOTED_FIELD (field p +:+ String c EmptyString) (fields p)).
Proof.
  intros Hs Hc. unfold parse_process_char. rewrite Hs, Hc.
  unfold parse_add_char. now rewrite Hs.
Qed.

Lemma quoted_quote p0 cur p :
  feed p0 cur = Ok p ->
  state p = IN_QUOTED_FIELD ->
  feed p0 (cur +:+ String dquote (String dquote EmptyString))
  = Ok (Parser IN_QUOTED_FIELD (field p +:+ String dquote EmptyString) (fields p)).
Proof.
  intros H Hs. rewrite feed_app, H. simpl.
  unfold parse_process_char at 1. rewrite Hs. reflexivity.
Qed.

Lemma quoted_eol p :
  state p = IN_QUOTED_FIELD -> parse_process_char p None = Ok p.
Proof. intros Hs. unfold parse_process_char. now rewrite Hs. Qed.

Lemma double_quotes_head f t :
  (forall f', f <> String LF f') ->
  exists c t', double_quotes f +:+ String dquote t = String c t' /\ Ascii.eqb c LF = false.
Proof.
  intros Hf. destruct f as [|c f]; simpl.
  - eexists _, _. split; reflexivity.
  - destruct (Ascii.eqb c dquote) eqn:Hq.
    + eexists _, _. split; reflexivity.
    + eexists _, _. split; [reflexivity|].
      destruct (Ascii.eqb_spec c LF) as [->|]; [|reflexivity].
      now destruct (Hf f).
Qed.

(** The content of a quoted field, whatever it is, is read back: the lines
    of the text may end inside it, the reader goes on with the next line. *)
Lemma quoted_content n :
  forall f, (String.length f <= n)%nat ->
  forall p0 cur p t,
    feed p0 cur = Ok p ->
    state p = IN_QUOTED_FIELD ->
    exists p0' cur',
      feed p0' cur' = Ok (Parser IN_QUOTED_FIELD (field p +:+ f) (fields p)) /\
      reader_from p0 (splitlines_from cur (double_quotes f +:+ String dquote t)) None
      = reader_from p0' (splitlines_from cur' (String dquote t)) None.
Proof.
  induction n as [|n IH]; intros f Hn p0 cur p t Hp Hs.
  - destruct f; [|simpl in Hn; lia]. exists p0, cur. rewrite append_nil_r.
    split; [|reflexivity]. rewrite Hp. destruct p; simpl in *; now subst.
  - destruct f as [|c f].
    { exists p0, cur. rewrite append_nil_r.
      split; [|reflexivity]. rewrite Hp. destruct p; simpl in *; now subst. }
    simpl in Hn. cbn [double_quotes].
    destruct (Ascii.eqb c dquote) eqn:Hq.
    { (* a quote, written twice *)
      apply Ascii.eqb_eq in Hq as ->.
      rewrite !append_cons, !splitlines_char by reflexivity.
      rewrite append_snoc.
      destruct (IH f ltac:(lia) p0 (cur +:+ String dquote (String dquote EmptyString))
                  _ t (quoted_quote _ _ _ Hp Hs) eq_refl) as (p0' & cur' & H1 & H2).
      exists p0', cur'. cbn [field fields] in H1.
      rewrite append_snoc in H1. split; [exact H1 | exact H2]. }
    pose proof (quoted_char p c Hs Hq) as Hc.
    destruct (Ascii.eqb c LF) eqn:HLF.
    { (* a line feed ends the line *)
      apply Ascii.eqb_eq in HLF as ->.
      rewrite append_cons, splitlines_LF.
      erewrite reader_continue;
        [| unfold parse_line; rewrite (feed_snoc _ _ _ _ _ Hp Hc); simpl;
           apply quoted_eol; reflexivity
         | discriminate].
      destruct (IH f ltac:(lia)
                  (Parser IN_QUOTED_FIELD (field p +:+ String LF EmptyString) (fields p))
                  EmptyString _ t eq_refl eq_refl)
        as (p0' & cur' & H1 & H2).
      exists p0', cur'. cbn [field fields] in H1. rewrite append_snoc in H1.
      split; [exact H1 | exact H2]. }
    destruct (Ascii.eqb c CR) eqn:HCR.
    { apply Ascii.eqb_eq in HCR as ->.
      destruct f as [|c2 f].
      { (* a carriage return at the end of the field *)
        rewrite append_cons. cbn [double_quotes].
        change (EmptyString +:+ String dquote t) with (String dquote t).
        rewrite splitlines_CR by reflexivity.
        erewrite reader_continue;
          [| unfold parse_line; rewrite (feed_snoc _ _ _ _ _ Hp Hc); simpl;
             apply quoted_eol; reflexivity
           | discriminate].
        eexists _, EmptyString. split; reflexivity. }
      destruct (Ascii.eqb c2 LF) eqn:H2LF.
      { (* carriage return, line feed *)
        apply Ascii.eqb_eq in H2LF as ->.
        cbn [double_quotes]. change (Ascii.eqb LF dquote) with false. cbv iota.
        rewrite !append_cons, splitlines_CRLF.
        assert (HL : parse_process_char
                       (Parser IN_QUOTED_FIELD (field p +:+ String CR EmptyString) (fields p))
                       (Some LF)
                     = Ok (Parser IN_QUOTED_FIELD
                             ((field p +:+ String CR EmptyString) +:+ String LF EmptyString)
                             (fields p))) by reflexivity.
        erewrite reader_continue;
          [| unfold parse_line, lineterminator;
             rewrite <- (append_snoc cur CR), (feed_snoc _ _ _ _ _ (feed_snoc _ _ _ _ _ Hp Hc) HL);
             simpl; apply quoted_eol; reflexivity
           | discriminate].
        simpl in Hn.
        destruct (IH f ltac:(lia)
                    (Parser IN_QUOTED_FIELD
                       ((field p +:+ String CR EmptyString) +:+ String LF EmptyString)
                       (fields p))
                    EmptyString _ t eq_refl eq_refl)
          as (p0' & cur' & H1 & H2).
        exists p0', cur'. cbn [field fields] in H1. rewrite !append_snoc in H1.
        split; [exact H1 | exact H2]. }
      (* a carriage return followed by something else *)
      rewrite append_cons.
      destruct (double_quotes_head (String c2 f) t) as (c' & t' & Ht & Hc').
      { intros f' [= -> _]. discriminate H2LF. }
      rewrite Ht, splitlines_CR by exact Hc'. rewrite <- Ht.
      erewrite reader_continue;
        [| unfold parse_line; rewrite (feed_snoc _ _ _ _ _ Hp Hc); simpl;
           apply quoted_eol; reflexivity
         | discriminate].
      destruct (IH (String c2 f) ltac:(lia)
                  (Parser IN_QUOTED_FIELD (field p +:+ String CR EmptyString) (fields p))
                  EmptyString _ t eq_refl eq_refl)
        as (p0' & cur' & H1 & H2).
      exists p0', cur'. cbn [field fields] in H1. rewrite append_snoc in H1.
      split; [exact H1 | exact H2]. }
    (* any other character *)
    rewrite append_cons, splitlines_char
      by (unfold is_newline; now rewrite HLF, HCR).
    destruct (IH f ltac:(lia) p0 _ _ t (feed_snoc _ _ _ _ _ Hp Hc) eq_refl)
      as (p0' & cur' & H1 & H2).
    exists p0', cur'. cbn [field fields] in H1. rewrite append_snoc in H1.
    split; [exact H1 | exact H2].
Qed.

Lemma special_flags c :
  special c = false ->
  Ascii.eqb c dquote = false /\ Ascii.eqb c comma = false /\ is_newline c = false.
Proof.
  intros H. split; [|split; [|now apply special_newline]];
    unfold special in H;
    destruct (Ascii.eqb c comma), (Ascii.eqb c dquote); simpl in H; congruence.
Qed.

(** Characters without meaning for the format are added to the field. *)
Lemma plain_chars f p :
  has_special f = false ->
  state p = IN_FIELD ->
  feed p f = Ok (Parser IN_FIELD (field p +:+ f) (fields p)).
Proof.
  revert p. induction f as [|c f IH]; intros p Hf Hs.
  - rewrite append_nil_r. destruct p; simpl in *; now subst.
  - simpl in Hf. apply orb_false_elim in Hf as [Hc Hf].
    destruct (special_flags _ Hc) as (Hq & Hcm & Hnl).
    simpl. unfold parse_process_char. rewrite Hs, Hnl, Hcm. simpl.
    rewrite IH by (exact Hf || now rewrite <- Hs).
    cbn [field fields parse_add_char]. now rewrite append_snoc.
Qed.

Lemma plain_field f p :
  has_special f = false ->
  state p = START_FIELD \/ state p = START_RECORD ->
  field p = EmptyString ->
  exists p', feed p f = Ok p' /\ field_read p p' f.
Proof.
  intros Hf Hs He. destruct f as [|c f].
  - exists p. split; [reflexivity|]. destruct p as [st fd fs]. simpl in *. subst fd.
    destruct Hs as [-> | ->]; split; try reflexivity.
    intros [H|H]; [discriminate H | now destruct H].
  - simpl in Hf. apply orb_false_elim in Hf as [Hc Hf].
    destruct (special_flags _ Hc) as (Hq & Hcm & Hnl).
    exists (Parser IN_FIELD (String c f) (fields p)). split.
    + simpl.
      assert (H1 : parse_process_char p (Some c)
                   = Ok (Parser IN_FIELD (String c EmptyString) (fields p))).
      { destruct p as [st fd fs]. simpl in *. subst fd.
        destruct Hs as [-> | ->]; unfold parse_process_char, start_field; cbn [state];
          rewrite ?Hnl, Hq, Hcm; reflexivity. }
      rewrite H1. simpl. now rewrite plain_chars.
    + split; [reflexivity|]. intros _. reflexivity.
Qed.

Lemma open_quote p :
  state p = START_FIELD \/ state p = START_RECORD ->
  field p = EmptyString ->
  parse_process_char p (Some dquote)
  = Ok (Parser IN_QUOTED_FIELD EmptyString (fields p)).
Proof.
  intros Hs He. destruct p as [st fd fs]. simpl in *. subst fd.
  destruct Hs as [-> | ->]; reflexivity.
Qed.

(** One field, as the writer lays it out, is read back, whatever follows. *)
Lemma read_field f p0 cur p t :
  feed p0 cur = Ok p ->
  state p = START_FIELD \/ state p = START_RECORD ->
  field p = EmptyString ->
  exists p0' cur' p',
    feed p0' cur' = Ok p' /\
    field_read p p' f /\
    reader_from p0 (splitlines_from cur (write_field f +:+ t)) None
    = reader_from p0' (splitlines_from cur' t) None.
Proof.
  intros Hp Hs He. unfold write_field. destruct (has_special f) eqn:Hf.
  - rewrite append_cons, append_snoc, splitlines_char by reflexivity.
    destruct (quoted_content (String.length f) f (le_n _) p0
                (cur +:+ String dquote EmptyString) _ t
                (feed_snoc _ _ _ _ _ Hp (open_quote _ Hs He)) eq_refl)
      as (p0' & cur' & H1 & H2).
    cbn [field fields] in H1. change (EmptyString +:+ f) with f in H1.
    rewrite H2, splitlines_char by reflexivity.
    exists p0', (cur' +:+ String dquote EmptyString),
      (Parser QUOTE_IN_QUOTED_FIELD f (fields p)).
    split; [exact (feed_snoc _ _ _ dquote (Parser QUOTE_IN_QUOTED_FIELD f (fields p)) H1 eq_refl)|].
    split; [|reflexivity]. split; [reflexivity|]. intros _. reflexivity.
  - rewrite splitlines_plain by exact Hf.
    destruct (plain_field f p Hf Hs He) as (p' & H1 & H2).
    exists p0, (cur +:+ f), p'. split; [|split; [exact H2 | reflexivity]].
    rewrite feed_app, Hp. exact H1.
Qed.

Lemma end_of_record p0 cur p fs rest :
  feed p0 cur = Ok p ->
  parse_process_char p (Some CR) = Ok (Parser EAT_CRNL EmptyString fs) ->
  reader_from p0 (splitlines_from cur (lineterminator +:+ rest)) None
  = yield fs (reader (splitlines rest) None).
Proof.
  intros Hp Hcr. unfold lineterminator. rewrite !append_cons.
  change (EmptyString +:+ rest) with rest. rewrite splitlines_CRLF.
  apply reader_yield with (p' := Parser START_RECORD EmptyString fs); [|reflexivity].
  unfold parse_line, lineterminator.
  rewrite <- (append_snoc cur CR),
    (feed_snoc _ _ _ LF (Parser EAT_CRNL EmptyString fs) (feed_snoc _ _ _ _ _ Hp Hcr) eq_refl).
  reflexivity.
Qed.

(** The fields of a record, from a field on, followed by the end of line. *)
Lemma read_fields fs :
  fs <> [] ->
  forall p0 cur p rest,
    feed p0 cur = Ok p ->
    state p = START_FIELD ->
    field p = EmptyString ->
    reader_from p0 (splitlines_from cur (join_fields fs +:+ lineterminator +:+ rest)) None
    = yield (fields p ++ fs) (reader (splitlines rest) None).
Proof.
  induction fs as [|f fs IH]; [congruence|]. intros _ p0 cur p rest Hp Hs He.
  destruct (read_field f p0 cur p
              (match fs with
               | [] => lineterminator +:+ rest
               | _ => String comma (join_fields fs +:+ lineterminator +:+ rest)
               end) Hp (or_introl Hs) He)
    as (p0' & cur' & p' & H1 & [Hcomma Hcr] & H2).
  destruct fs as [|f2 fs].
  - cbn [join_fields]. rewrite H2.
    apply (end_of_record _ _ _ _ _ H1). apply Hcr. now left.
  - change (join_fields (f :: f2 :: fs))
      with (write_field f +:+ String comma (join_fields (f2 :: fs))).
    rewrite append_assoc, append_cons, H2.
    rewrite splitlines_char by reflexivity.
    rewrite (IH ltac:(discriminate) p0' _ _ rest (feed_snoc _ _ _ _ _ H1 Hcomma) eq_refl eq_refl).
    cbn [fields]. now rewrite <- app_assoc.
Qed.

(** A record of two fields or more at the start of a line. *)
Lemma read_record f f2 fs rest :
  reader (splitlines (join_fields (f :: f2 :: fs) +:+ lineterminator +:+ rest)) None
  = yield (f :: f2 :: fs) (reader (splitlines rest) None).
Proof.
  unfold reader at 1, splitlines at 1.
  change (join_fields (f :: f2 :: fs))
    with (write_field f +:+ String comma (join_fields (f2 :: fs))).
  rewrite append_assoc, append_cons.
  destruct (read_field f parse_reset EmptyString parse_reset
              (String comma (join_fields (f2 :: fs) +:+ lineterminator +:+ rest))
              eq_refl (or_intror eq_refl) eq_refl)
    as (p0' & cur' & p' & H1 & [Hcomma _] & H2).
  rewrite H2, splitlines_char by reflexivity.
  now rewrite (read_fields (f2 :: fs) ltac:(discriminate) p0' _ _ rest
                 (feed_snoc _ _ _ _ _ H1 Hcomma) eq_refl eq_refl).
Qed.

Lemma read_header rest :
  reader (splitlines (join_fields fieldnames +:+ lineterminator +:+ rest)) None
  = yield fieldnames (reader (splitlines rest) None).
Proof. apply read_record. Qed.

(** ** Saving, then loading *)

Lemma plain_rows es :
  Forall plain es -> exists rs, es = map expense_of rs.
Proof.
  induction 1 as [|e es (d & c & ds & a & ->) _ [rs ->]].
  - now exists [].
  - now exists ((d, c, ds, a) :: rs).
Qed.

Lemma writerow_four d c ds a :
  writerow [Some d; Some c; Some ds; Some a]
  = join_fields [d; c; ds; a] +:+ lineterminator.
Proof. unfold writerow. cbn [map default from_option id]. now destruct d. Qed.

Lemma writerows_plain rs :
  writerows fieldnames (map expense_of rs)
  = (foldr (fun r text => join_fields (values_of r) +:+ lineterminator +:+ text)
           EmptyString rs, None).
Proof.
  induction rs as [|[[[d c] ds] a] rs IH]; [reflexivity|].
  cbn [map writerows].
  change (dict_to_list fieldnames (expense_of (d, c, ds, a)))
    with (Ok [Some d; Some c; Some ds; Some a] : result (list (option string))).
  rewrite IH. cbn [foldr]. f_equal.
  rewrite writerow_four. cbn [values_of]. now rewrite append_assoc.
Qed.

Lemma read_rows rs :
  reader (splitlines
            (foldr (fun r text => join_fields (values_of r) +:+ lineterminator +:+ text)
                   EmptyString rs)) None
  = Trace (map values_of rs) None.
Proof.
  induction rs as [|[[[d c] ds] a] rs IH]; [reflexivity|].
  cbn [foldr map]. unfold values_of at 1. rewrite read_record, IH. reflexivity.
Qed.

Lemma zip_rows rs :
  map (zip_row fieldnames) (filter (fun r => r <> []) (map values_of rs))
  = map expense_of rs.
Proof.
  induction rs as [|[[[d c] ds] a] rs IH]; [reflexivity|].
  cbn [map]. rewrite filter_cons_True by discriminate.
  cbn [map]. now rewrite IH.
Qed.



(** ** The total *)

Lemma sum_amounts_spec es acc :
  sum_amounts acc es = xs ← amounts es; Ok (foldl fadd acc xs).
Proof.
  revert acc. induction es as [|e es IH]; intros acc; [reflexivity|].
  simpl. destruct (amount_of e) as [x|err]; [|reflexivity]. simpl.
  rewrite IH. now destruct (amounts es).
Qed.

Lemma total_spec es xs : amounts es = Ok xs -> total es = Ok (Py.sum xs).
Proof. intros H. unfold total. now rewrite sum_amounts_spec, H. Qed.

Lemma amounts_values es xs : amounts es = Ok xs -> xs = map amount_value es.
Proof.
  revert xs. induction es as [|e es IH]; intros xs; simpl; [congruence|].
  unfold amount_value at 1.
  destruct (amount_of e) as [x|err]; simpl; [|discriminate].
  destruct (amounts es) as [xs'|err]; simpl; [|discriminate].
  intros [= <-]. now rewrite (IH xs').
Qed.

Lemma exact_sum_value xs acc :
  exact_sum acc xs = true ->
  scaled (foldl fadd acc xs) = scaled acc + foldr Z.add 0 (map scaled xs).
Proof.
  revert acc. induction xs as [|x xs IH]; intros acc H; simpl; [lia|].
  simpl in H. apply andb_prop in H as [Hx Hxs].
  unfold exact_add in Hx. apply andb_prop in Hx as [_ Hx%Z.eqb_eq].
  rewrite (IH _ Hxs), Hx. lia.
Qed.

Lemma sum_scaled_perm (xs ys : list float) :
  xs ≡ₚ ys ->
  foldr Z.add 0 (map scaled xs) = foldr Z.add 0 (map scaled ys).
Proof. induction 1; simpl; lia. Qed.



(** The same holds when the sum is compensated, and ordinary amounts show
    the dependence already for the plain sum. *)
Lemma compensated_sum_depends_on_order :
  exists xs,
    amounts big_first = Ok xs /\
    sum_compensated xs = float_of_Z 9007199254740992 /\
    sum_compensated (reverse xs) = float_of_Z 9007199254740994.
Proof. eexists. split; [vm_compute; reflexivity|]. split; vm_compute; reflexivity. Qed.

Lemma tenths_depend_on_order :
  total [mk_expense "2024-05-01" "Food" "a" "0.1";
         mk_expense "2024-05-01" "Food" "b" "0.2";
         mk_expense "2024-05-01" "Food" "c" "0.3"]
  <> total [mk_expense "2024-05-01" "Food" "c" "0.3";
            mk_expense "2024-05-01" "Food" "b" "0.2";
            mk_expense "2024-05-01" "Food" "a" "0.1"].
Proof. vm_compute. discriminate. Qed.

(** ** The breakdown by category *)

Lemma category_known_has e : category_known e -> has_category e.
Proof. intros (c & Hc & _). unfold has_category. rewrite Hc. eauto. Qed.

Lemma amounts_filter (P : expense -> Prop) `{forall e, Decision (P e)} es xs :
  amounts es = Ok xs ->
  amounts (filter P es) = Ok (map amount_value (filter P es)).
Proof.
  revert xs. induction es as [|e es IH]; intros xs; [reflexivity|].
  simpl. destruct (amount_of e) as [x|err] eqn:Hx; simpl; [|discriminate].
  destruct (amounts es) as [xs'|err]; simpl; [|discriminate]. intros _.
  rewrite filter_cons. destruct (decide (P e)); [|now apply (IH xs')].
  simpl. rewrite Hx. simpl. rewrite (IH xs' eq_refl). simpl.
  unfold amount_value at 2. now rewrite Hx.
Qed.

Lemma positive_not_zero t : fltb fzero t = true -> is_zero t = false.
Proof. now destruct t. Qed.

Lemma breakdown_row_spec es xs t category :
  Forall category_known es ->
  amounts es = Ok xs ->
  is_zero t = false ->
  breakdown_row es t category
  = Ok (match records_in es category with
        | [] => None
        | _ => Some (breakdown_line es t category)
        end).
Proof.
  intros Hes Hxs Ht. unfold breakdown_row.
  rewrite filter_by_category_spec
    by (eapply Forall_impl; [exact Hes | exact category_known_has]).
  simpl. fold (records_in es category).
  destruct (records_in es category) as [|e fc] eqn:Hfc; [reflexivity|].
  rewrite sum_amounts_spec. unfold records_in in Hfc. rewrite <- Hfc.
  rewrite (amounts_filter _ _ _ Hxs). simpl.
  unfold truediv. rewrite Ht. simpl. reflexivity.
Qed.

Lemma breakdown_spec es xs t stdin categories :
  Forall category_known es ->
  amounts es = Ok xs ->
  is_zero t = false ->
  breakdown es t categories stdin
  = Run (Ok tt) stdin
      (omap (fun category =>
               match records_in es category with
               | [] => None
               | _ => Some (breakdown_line es t category)
               end) categories).
Proof.
  intros Hes Hxs Ht. induction categories as [|c cs IH]; [reflexivity|].
  cbn [breakdown].
  rewrite (run_lift_ok _ _ _ _ (breakdown_row_spec es xs t c Hes Hxs Ht)).
  change (omap ?f (c :: cs))
    with (match f c with Some y => y :: omap f cs | None => omap f cs end).
  cbv beta. destruct (records_in es c) as [|e fc].
  - unfold mbind, io_bind. cbn [mret io_ret outcome unread printed].
    rewrite IH. reflexivity.
  - rewrite run_print, IH. reflexivity.
Qed.

Lemma omap_present es t :
  omap (fun category =>
          match records_in es category with
          | [] => None
          | _ => Some (breakdown_line es t category)
          end) CATEGORIES
  = map (breakdown_line es t) (present es).
Proof.
  unfold present. induction CATEGORIES as [|c cs IH]; [reflexivity|].
  change (omap ?f (c :: cs))
    with (match f c with Some y => y :: omap f cs | None => omap f cs end).
  cbv beta. rewrite filter_cons.
  destruct (records_in es c) as [|e fc] eqn:Hc.
  - destruct (decide ([] <> [])) as [H|_]; [now destruct H|]. exact IH.
  - destruct (decide (e :: fc <> [])) as [_|H]; [|now destruct H].
    cbn [map]. now rewrite IH.
Qed.

(** *** The percentages without rounding *)

Lemma exact_total_cons e es :
  exact_total (e :: es) = scaled (amount_value e) + exact_total es.
Proof. reflexivity. Qed.

Lemma exact_total_in es c e :
  exact_total (records_in (e :: es) c)
  = (if decide (category_is c e) then scaled (amount_value e) else 0)
    + exact_total (records_in es c).
Proof.
  unfold records_in. rewrite filter_cons.
  destruct (decide (category_is c e)); [reflexivity | lia].
Qed.

Lemma one_category e v cs :
  NoDup cs ->
  (exists c, named e !! "category" = Some (Some c) /\ c ∈ cs) ->
  foldr Z.add 0 (map (fun c => if decide (category_is c e) then v else 0) cs) = v.
Proof.
  intros Hnd (c0 & Hc0 & Hin).
  induction Hnd as [|c cs Hc Hnd IH]; [inversion Hin|].
  cbn [map foldr]. destruct (decide (category_is c e)) as [H|H].
  - unfold category_is in H. rewrite Hc0 in H. injection H as <-.
    assert (Hz : foldr Z.add 0 (map (fun c => if decide (category_is c e) then v else 0) cs) = 0).
    { clear IH Hin Hnd. induction cs as [|c cs IH]; [reflexivity|].
      cbn [map foldr]. destruct (decide (category_is c e)) as [H|_].
      - unfold category_is in H. rewrite Hc0 in H. injection H as <-.
        destruct Hc. apply list_elem_of_here.
      - rewrite IH; [lia|]. intros H. apply Hc. now apply list_elem_of_further. }
    rewrite Hz. lia.
  - rewrite IH; [lia|]. apply elem_of_cons in Hin as [->|Hin]; [|exact Hin].
    now destruct H.
Qed.

Lemma categories_partition es cs :
  NoDup cs ->
  Forall (fun e => exists c, named e !! "category" = Some (Some c) /\ c ∈ cs) es ->
  foldr Z.add 0 (map (fun c => exact_total (records_in es c)) cs) = exact_total es.
Proof.
  intros Hnd. induction 1 as [|e es He Hes IH].
  - induction cs as [|c cs IHc]; [reflexivity|].
    cbn [map foldr]. apply NoDup_cons in Hnd as [_ Hnd]. now rewrite (IHc Hnd).
  - rewrite exact_total_cons, <- IH, <- (one_category e (scaled (amount_value e)) cs Hnd He).
    clear. induction cs as [|c cs IHc]; [reflexivity|].
    cbn [map foldr]. rewrite exact_total_in, IHc. lia.
Qed.

Lemma absent_contribute_nothing es cs :
  foldr Z.add 0 (map (fun c => exact_total (records_in es c))
                     (filter (fun c => records_in es c <> []) cs))
  = foldr Z.add 0 (map (fun c => exact_total (records_in es c)) cs).
Proof.
  induction cs as [|c cs IH]; [reflexivity|].
  rewrite filter_cons. cbn [map foldr].
  destruct (decide (records_in es c <> [])) as [H|H].
  - cbn [map foldr]. now rewrite IH.
  - rewrite IH. destruct (records_in es c); [reflexivity | now destruct H].
Qed.

Lemma sumQ_percentages es cs :
  exact_total es <> 0 ->
  (sumQ (map (exact_percentage es) cs)
   == 100 * (inject_Z (foldr Z.add 0%Z (map (fun c => exact_total (records_in es c)) cs))
             / inject_Z (exact_total es)))%Q.
Proof.
  intros Ht.
  assert (Hq : ~ (inject_Z (exact_total es) == 0)%Q).
  { unfold Qeq. simpl. lia. }
  induction cs as [|c cs IH]; cbn [map foldr sumQ].
  - change (inject_Z 0) with 0%Q. field. exact Hq.
  - fold (sumQ (map (exact_percentage es) cs)). rewrite IH.
    unfold exact_percentage. rewrite inject_Z_plus. field. exact Hq.
Qed.

Lemma NoDup_CATEGORIES : NoDup CATEGORIES.
Proof.
  unfold CATEGORIES.
  repeat (apply NoDup_cons; split;
          [intros H; repeat (apply elem_of_cons in H as [H|H]; [discriminate H|]);
           inversion H|]).
  apply NoDup_nil_2.
Qed.





(** The sample collection is summed without rounding, in either direction;
    its amounts are finite and their total is not 0. *)
Lemma sample_exact :
  exact_sum fzero sample_amounts = true /\
  exact_sum fzero (reverse sample_amounts) = true /\
  Forall (fun x => representable x = true) sample_amounts /\
  exact_total sample <> 0.
Proof.
  split; [vm_compute; reflexivity|]. split; [vm_compute; reflexivity|].
  split; [repeat constructor | vm_compute; discriminate].
Qed.

(** ** A file that is read to its end is always loaded *)

Lemma eol_accepted p :
  exists p', parse_process_char p None = Ok p' /\ state p' <> EAT_CRNL.
Proof.
  destruct p as [[] fd fs]; eexists; (split; [reflexivity | discriminate]).
Qed.

Lemma newline_accepted p c :
  is_newline c = true -> exists p', parse_process_char p (Some c) = Ok p'.
Proof.
  intros Hc. destruct p as [st fd fs].
  destruct st; unfold parse_process_char, start_field; cbn [state]; rewrite ?Hc;
    try (eexists; reflexivity);
    destruct (Ascii.eqb c dquote); try (eexists; reflexivity);
    destruct (Ascii.eqb c comma); eexists; reflexivity.
Qed.

Lemma char_accepted p c :
  state p <> EAT_CRNL ->
  is_newline c = false ->
  exists p', parse_process_char p (Some c) = Ok p' /\ state p' <> EAT_CRNL.
Proof.
  intros Hs Hc. destruct p as [st fd fs].
  destruct st; unfold parse_process_char, start_field; cbn [state] in *; rewrite ?Hc;
    try congruence;
    destruct (Ascii.eqb c dquote); try (eexists; split; [reflexivity | discriminate]);
    destruct (Ascii.eqb c comma); eexists; (split; [reflexivity | discriminate]).
Qed.

Lemma line_read p0 l fault ls :
  (exists p', parse_line p0 l = Ok p' /\ state p' <> EAT_CRNL) ->
  (forall p, state p <> EAT_CRNL -> stopped (reader_from p ls fault) = None) ->
  stopped (reader_from p0 (l :: ls) fault) = None.
Proof.
  intros (p' & Hl & Hs) Hls. simpl. rewrite Hl.
  destruct (bool_decide (state p' = START_RECORD)); [simpl|]; apply Hls;
    [discriminate | exact Hs].
Qed.

Lemma line_ending p0 cur p ending :
  feed p0 cur = Ok p ->
  (exists p1, feed p ending = Ok p1) ->
  exists p', parse_line p0 (cur +:+ ending) = Ok p' /\ state p' <> EAT_CRNL.
Proof.
  intros Hp (p1 & H1). unfold parse_line. rewrite feed_app, Hp. simpl. rewrite H1. simpl.
  apply eol_accepted.
Qed.

Lemma readable n :
  forall text, (String.length text <= n)%nat ->
  forall p0 cur p,
    feed p0 cur = Ok p ->
    state p <> EAT_CRNL ->
    stopped (reader_from p0 (splitlines_from cur text) None) = None.
Proof.
  induction n as [|n IH]; intros text Hn p0 cur p Hp Hs.
  - destruct text; [|simpl in Hn; lia]. simpl. destruct cur.
    + simpl. now destruct (_ || _).
    + apply line_read.
      * rewrite <- (append_nil_r (String a cur)). apply (line_ending _ _ _ _ Hp). now exists p.
      * intros q _. simpl. now destruct (_ || _).
  - destruct text as [|c text].
    { simpl. destruct cur.
      + simpl. now destruct (_ || _).
      + apply line_read.
        * rewrite <- (append_nil_r (String a cur)). apply (line_ending _ _ _ _ Hp). now exists p.
        * intros q _. simpl. now destruct (_ || _). }
    simpl in Hn.
    assert (Hnext : forall text', (String.length text' <= n)%nat ->
              forall q, state q <> EAT_CRNL ->
              stopped (reader_from q (splitlines_from EmptyString text') None) = None).
    { intros text' Hl q Hq. exact (IH text' Hl q EmptyString q eq_refl Hq). }
    destruct (Ascii.eqb c LF) eqn:HLF.
    { apply Ascii.eqb_eq in HLF as ->. rewrite splitlines_LF. apply line_read.
      - apply (line_ending _ _ _ _ Hp). simpl.
        destruct (newline_accepted p LF eq_refl) as [p1 ->]. simpl. eauto.
      - intros q Hq. apply Hnext; [lia | exact Hq]. }
    destruct (Ascii.eqb c CR) eqn:HCR.
    { apply Ascii.eqb_eq in HCR as ->.
      destruct (newline_accepted p CR eq_refl) as [p1 Hp1].
      destruct text as [|c2 text].
      - change (splitlines_from cur (String CR EmptyString))
          with [cur +:+ String CR EmptyString].
        apply line_read.
        + apply (line_ending _ _ _ _ Hp). simpl. rewrite Hp1. simpl. eauto.
        + intros q _. simpl. now destruct (_ || _).
      - destruct (Ascii.eqb c2 LF) eqn:H2.
        + apply Ascii.eqb_eq in H2 as ->. rewrite splitlines_CRLF. apply line_read.
          * apply (line_ending _ _ _ _ Hp). simpl. rewrite Hp1. simpl.
            destruct (newline_accepted p1 LF eq_refl) as [p2 ->]. simpl. eauto.
          * intros q Hq. simpl in Hn. apply Hnext; [lia | exact Hq].
        + rewrite splitlines_CR by exact H2. apply line_read.
          * apply (line_ending _ _ _ _ Hp). simpl. rewrite Hp1. simpl. eauto.
          * intros q Hq. apply Hnext; [lia | exact Hq]. }
    assert (Hnl : is_newline c = false) by (unfold is_newline; now rewrite HLF, HCR).
    rewrite splitlines_char by exact Hnl.
    destruct (char_accepted p c Hs Hnl) as (p1 & Hp1 & Hs1).
    apply (IH text ltac:(lia) p0 _ p1 (feed_snoc _ _ _ _ _ Hp Hp1) Hs1).
Qed.

(** The reader of the default dialect, as embedded here, accepts every
    text: a file that can be read to its end is loaded without an error,
    and a failure of load comes from the reading of the file. *)
Lemma load_readable_file (text : string) :
  exists es, load_expenses (Some (Regular text None)) = (es, [Loaded (length es)]).
Proof.
  unfold load_expenses, rows_of.
  assert (H : stopped (DictReader (splitlines text) None) = None).
  { unfold DictReader, reader, splitlines.
    pose proof (readable (String.length text) text (le_n _) parse_reset EmptyString
                  parse_reset eq_refl ltac:(discriminate)) as Hr.
    destruct (items (reader_from parse_reset (splitlines_from EmptyString text) None));
      exact Hr. }
  rewrite H. eauto.
Qed.

(** * Properties of the rest of the program *)

(** ** Steps of a procedure, and the order of reading *)

Section Steps.
Context {A B : Type}.

Lemma bind_run (m : io A) (k : A -> io B) stdin a stdin' out :
  m stdin = Run (Ok a) stdin' out ->
  (m ≫= k) stdin
  = Run (outcome (k a stdin')) (unread (k a stdin')) (out ++ printed (k a stdin')).
Proof. intros H. unfold mbind, io_bind. now rewrite H. Qed.

Lemma bind_raise (m : io A) (k : A -> io B) stdin e :
  outcome (m stdin) = Raise e ->
  (m ≫= k) stdin = Run (Raise e) (unread (m stdin)) (printed (m stdin)).
Proof. intros H. unfold mbind, io_bind. now rewrite H. Qed.

Lemma run_eta (r : run A) : Run (outcome r) (unread r) (printed r) = r.
Proof. now destruct r. Qed.

Lemma forward_bind (m : io A) (k : A -> io B) :
  forward m -> (forall a, forward (k a)) -> forward (m ≫= k).
Proof.
  intros Hm Hk stdin. unfold mbind, io_bind.
  destruct (outcome (m stdin)) as [a|e]; cbn [unread]; [|apply Hm].
  etransitivity; [apply Hk | apply Hm].
Qed.

Lemma forward_ret (a : A) : forward (mret a : io A).
Proof. intros stdin. reflexivity. Qed.

Lemma forward_lift (m : result A) : forward (lift m).
Proof. intros stdin. reflexivity. Qed.
End Steps.

Lemma forward_print l : forward (print l).
Proof. intros stdin. reflexivity. Qed.

Lemma forward_input : forward input.
Proof. intros [|s stdin]; [reflexivity|]. now apply suffix_cons_r. Qed.

Lemma forward_print_each {A} (show : A -> result line) xs :
  forward (print_each show xs).
Proof.
  induction xs as [|x xs IH]; [apply forward_ret|].
  cbn [print_each]. apply forward_bind; [apply forward_lift|].
  intros l. apply forward_bind; [apply forward_print|]. intros _. exact IH.
Qed.

Lemma forward_ask_category : forward ask_category.
Proof.
  intros stdin. induction stdin as [|s stdin IH]; [reflexivity|].
  cbn [ask_category]. destruct (int s) as [choice|].
  - destruct ((1 <=? choice) && (choice <=? 7)); cbn [unread say];
      now apply suffix_cons_r.
  - cbn [unread say]. now apply suffix_cons_r.
Qed.

Lemma forward_ask_amount : forward ask_amount.
Proof.
  intros stdin. induction stdin as [|s stdin IH]; [reflexivity|].
  cbn [ask_amount]. destruct (float_of_str s) as [amount|].
  - destruct (fltb fzero amount); cbn [unread say]; now apply suffix_cons_r.
  - cbn [unread say]. now apply suffix_cons_r.
Qed.

Lemma forward_ask_index es : forward (ask_index es).
Proof.
  intros stdin. induction stdin as [|s stdin IH]; [reflexivity|].
  cbn [ask_index]. destruct (String.eqb (lower s) "c");
    [now apply suffix_cons_r|].
  destruct (int s) as [choice|]; [|cbn [unread say]; now apply suffix_cons_r].
  destruct ((1 <=? choice) && (choice <=? Z.of_nat (length es)));
    [|cbn [unread say]; now apply suffix_cons_r].
  destruct (remove_at choice es) as [[es' l]|e]; now apply suffix_cons_r.
Qed.

Lemma forward_breakdown es t categories : forward (breakdown es t categories).
Proof.
  induction categories as [|c cs IH]; [apply forward_ret|].
  cbn [breakdown]. apply forward_bind; [apply forward_lift|].
  intros [l|]; (apply forward_bind; [|intros _; exact IH]);
    [apply forward_print | apply forward_ret].
Qed.

Ltac forward_step :=
  first
    [ apply forward_ret | apply forward_lift | apply forward_print
    | apply forward_input | apply forward_print_each
    | apply forward_ask_category | apply forward_ask_amount
    | apply forward_ask_index | apply forward_breakdown
    | apply forward_bind; [|intros ?] ].

Lemma forward_add_expense today es : forward (add_expense today es).
Proof. unfold add_expense. repeat forward_step. Qed.

Lemma forward_view_all_expenses es : forward (view_all_expenses es).
Proof. unfold view_all_expenses. destruct es; repeat forward_step. Qed.

Lemma forward_view_by_category es : forward (view_by_category es).
Proof.
  unfold view_by_category. destruct es; repeat forward_step.
  match goal with |- forward (match ?l with _ => _ end) => destruct l end;
    repeat forward_step.
Qed.

Lemma forward_view_summary es : forward (view_summary es).
Proof. unfold view_summary. destruct es; repeat forward_step. Qed.

Lemma forward_delete_expense es : forward (delete_expense es).
Proof.
  unfold delete_expense. destruct es; repeat forward_step.
  match goal with a : _ * bool |- _ => destruct a as [es' []] end;
    repeat forward_step.
Qed.

(** ** What add and delete return *)

Lemma add_expense_appends today es stdin es' :
  outcome (add_expense today es stdin) = Ok es' ->
  exists category description amount,
    es' = es ++ [mk_expense today category description amount].
Proof.
  intros H. unfold add_expense in H.
  apply run_bind_inv in H as (_ & _ & H).
  apply run_bind_inv in H as (_ & _ & H).
  apply run_bind_inv in H as (category & _ & H).
  apply run_bind_inv in H as (typed & _ & H).
  apply run_bind_inv in H as (x & _ & H).
  apply run_bind_inv in H as (_ & _ & H).
  apply run_bind_inv in H as (_ & _ & H).
  match type of H with
  | outcome (mret ?v _) = _ => change (Ok v = Ok es') in H
  end.
  injection H as <-. eauto.
Qed.

Lemma ask_index_result es stdin es' cancelled :
  outcome (ask_index es stdin) = Ok (es', cancelled) ->
  es' = es \/ exists i, (i < length es)%nat /\ es' = delete i es.
Proof.
  induction stdin as [|choice stdin IH]; [discriminate|].
  cbn [ask_index].
  destruct (String.eqb (lower choice) "c"); [intros [= <- _]; now left|].
  destruct (int choice) as [i|]; [|exact IH].
  destruct ((1 <=? i) && (i <=? Z.of_nat (length es))) eqn:Hr; [|exact IH].
  apply andb_prop in Hr as [H1%Z.leb_le H2%Z.leb_le].
  unfold remove_at, pop.
  destruct (es !! Z.to_nat (i - 1)) as [deleted|] eqn:Hl; [|discriminate].
  cbn [mbind result_bind bind].
  destruct (getitem deleted "description"); [|discriminate].
  cbn [bind]. destruct (getitem deleted "amount"); [|discriminate].
  cbn [bind mret result_ret outcome]. intros [= <- _]. right.
  exists (Z.to_nat (i - 1)). split; [lia | reflexivity].
Qed.

Lemma delete_expense_result es stdin es' :
  outcome (delete_expense es stdin) = Ok es' ->
  es' = es \/ exists i, (i < length es)%nat /\ es' = delete i es.
Proof.
  intros H. destruct es as [|e es].
  - left. unfold delete_expense in H.
    apply run_bind_inv in H as (_ & _ & H).
    apply run_bind_inv in H as (_ & _ & H).
    now injection H as <-.
  - unfold delete_expense in H.
    apply run_bind_inv in H as (_ & _ & H).
    apply run_bind_inv in H as ([es1 cancelled] & Ha & H).
    assert (es' = es1) as ->.
    { destruct cancelled.
      - now injection H as <-.
      - apply run_bind_inv in H as (_ & _ & H). now injection H as <-. }
    exact (ask_index_result _ _ _ _ Ha).
Qed.

Lemma add_expense_plain today es stdin es' :
  Forall plain es ->
  outcome (add_expense today es stdin) = Ok es' -> Forall plain es'.
Proof.
  intros Hes H. apply add_expense_appends in H as (c & ds & a & ->).
  apply Forall_app. split; [exact Hes|].
  constructor; [|constructor]. now exists today, c, ds, a.
Qed.

Lemma delete_expense_plain es stdin es' :
  Forall plain es ->
  outcome (delete_expense es stdin) = Ok es' -> Forall plain es'.
Proof.
  intros Hes H. apply delete_expense_result in H as [->|(i & _ & ->)];
    [exact Hes|].
  now apply Forall_delete.
Qed.

(** ** Saving records that the writer refuses *)

Lemma save_plain rs d :
  d <> Some Blocked ->
  save_expenses (map expense_of rs) d = (Some (Regular (saved_text rs) None), [Saved]).
Proof.
  intros Hd. unfold save_expenses. rewrite writerows_plain.
  destruct d as [[text fault|]|]; [| congruence |];
    unfold saved_text, writeheader, fieldnames; cbn [map];
    now rewrite writerow_four, append_assoc.
Qed.

Lemma load_saved_text rs :
  load_expenses (Some (Regular (saved_text rs) None))
  = (map expense_of rs, [Loaded (length rs)]).
Proof.
  unfold load_expenses, rows_of, DictReader, saved_text.
  rewrite read_header, read_rows.
  cbn [items stopped yield]. rewrite append_each, zip_rows. cbn [app].
  now rewrite length_map.
Qed.

Lemma dict_to_list_refuses e :
  ~ writable e -> dict_to_list fieldnames e = Raise ValueError.
Proof.
  intros H. unfold dict_to_list.
  destruct (bool_decide (dom (named e) ⊆ list_to_set fieldnames)) eqn:H1;
    [|reflexivity].
  destruct (bool_decide (extra e = None)) eqn:H2; [|reflexivity].
  destruct H. split; [now apply bool_decide_eq_true in H1 | now apply bool_decide_eq_true in H2].
Qed.

Lemma writerows_refused rs e es2 :
  ~ writable e ->
  writerows fieldnames (map expense_of rs ++ e :: es2)
  = (foldr (fun r text => join_fields (values_of r) +:+ lineterminator +:+ text)
           EmptyString rs, Some ValueError).
Proof.
  intros He. induction rs as [|[[[d c] ds] a] rs IH].
  - cbn [map app writerows foldr]. now rewrite dict_to_list_refuses.
  - cbn [map app writerows].
    change (dict_to_list fieldnames (expense_of (d, c, ds, a)))
      with (Ok [Some d; Some c; Some ds; Some a] : result (list (option string))).
    rewrite IH. cbn [foldr]. f_equal.
    rewrite writerow_four. cbn [values_of]. now rewrite append_assoc.
Qed.


Lemma zip_row_extra fn vs :
  (length fn < length vs)%nat -> ~ writable (zip_row fn vs).
Proof.
  intros Hl [_ H]. unfold zip_row in H. cbn [extra] in H.
  now rewrite bool_decide_eq_true_2 in H by exact Hl.
Qed.


(** ** The keys of the records loaded *)

Lemma zip_insert_dom (kvs : list (string * string)) (m : gmap string (option string)) :
  dom (foldl (fun d kv => <[kv.1 := Some kv.2]> d) m kvs)
  = dom m ∪ list_to_set (kvs.*1).
Proof.
  revert m. induction kvs as [|[k v] kvs IH]; intros m.
  - cbn [foldl fmap list_fmap list_to_set]. now rewrite (right_id_L ∅ (∪)).
  - cbn [foldl fmap list_fmap list_to_set fst snd]. rewrite IH, dom_insert_L.
    now rewrite (comm_L (∪) {[k]} (dom m)), (assoc_L (∪)).
Qed.

Lemma none_insert_dom (ks : list string) (m : gmap string (option string)) :
  dom (foldl (fun d k => <[k := None]> d) m ks) = dom m ∪ list_to_set ks.
Proof.
  revert m. induction ks as [|k ks IH]; intros m.
  - cbn [foldl list_to_set]. now rewrite (right_id_L ∅ (∪)).
  - cbn [foldl list_to_set]. rewrite IH, dom_insert_L.
    now rewrite (comm_L (∪) {[k]} (dom m)), (assoc_L (∪)).
Qed.

Lemma fst_zip_take {A B} (l : list A) (k : list B) :
  (zip l k).*1 = take (length k) l.
Proof.
  revert k. induction l as [|x l IH]; intros [|y k]; try reflexivity.
  cbn [zip zip_with fmap list_fmap length take fst]. f_equal. apply IH.
Qed.

Lemma zip_row_dom fn vs :
  dom (named (zip_row fn vs)) = list_to_set fn.
Proof.
  unfold zip_row. cbn [named].
  rewrite none_insert_dom, zip_insert_dom, dom_empty_L, (left_id_L ∅ (∪)), fst_zip_take.
  now rewrite <- list_to_set_app_L, take_drop.
Qed.

Lemma DictReader_keys lines fault :
  exists header,
    Forall (fun e => dom (named e) = list_to_set header) (items (DictReader lines fault)).
Proof.
  unfold DictReader. destruct (items (reader lines fault)) as [|header rows].
  - exists []. constructor.
  - exists header. cbn [items]. apply Forall_forall. intros e He.
    apply list_elem_of_fmap in He as (vs & -> & _). apply zip_row_dom.
Qed.

Lemma load_items text fault :
  (load_expenses (Some (Regular text fault))).1 = items (rows_of text fault).
Proof.
  unfold load_expenses. rewrite append_each.
  now destruct (stopped (rows_of text fault)).
Qed.


Lemma ask_category_skip bad stdin :
  Forall (fun s => bad_choice s = true) bad ->
  ask_category (bad ++ stdin)
  = Run (outcome (ask_category stdin)) (unread (ask_category stdin))
        (map choice_rejection bad ++ printed (ask_category stdin)).
Proof.
  induction 1 as [|s bad Hs _ IH]; [symmetry; apply run_eta|].
  cbn [app ask_category map]. unfold bad_choice, choice_rejection in *.
  destruct (int s) as [choice|].
  - destruct ((1 <=? choice) && (choice <=? 7)); [discriminate|].
    now rewrite IH.
  - now rewrite IH.
Qed.

Lemma ask_amount_skip bad stdin :
  Forall (fun s => bad_amount s = true) bad ->
  ask_amount (bad ++ stdin)
  = Run (outcome (ask_amount stdin)) (unread (ask_amount stdin))
        (map amount_rejection bad ++ printed (ask_amount stdin)).
Proof.
  induction 1 as [|s bad Hs _ IH]; [symmetry; apply run_eta|].
  cbn [app ask_amount map]. unfold bad_amount, amount_rejection in *.
  destruct (float_of_str s) as [amount|].
  - destruct (fltb fzero amount); [discriminate|].
    now rewrite IH.
  - now rewrite IH.
Qed.

Lemma category_menu_printed stdin :
  print_each (fun ic : nat * string => Ok (CategoryItem ic.1 ic.2))
             (enumerate CATEGORIES) stdin
  = Run (Ok tt) stdin category_menu.
Proof. reflexivity. Qed.




(** ** Records that cannot be shown *)

Lemma print_each_unread {A} (show : A -> result line) xs stdin :
  unread (print_each show xs stdin) = stdin.
Proof.
  induction xs as [|x xs IH]; [reflexivity|].
  cbn [print_each]. destruct (show x) as [l|e] eqn:Hx.
  - rewrite (run_lift_ok _ _ _ _ eq_refl), run_print. exact IH.
  - reflexivity.
Qed.

Lemma print_each_fails {A} (show : A -> result line) xs stdin :
  Exists (fun x => succeeded (show x) = false) xs ->
  exists e, outcome (print_each show xs stdin) = Raise e.
Proof.
  induction xs as [|x xs IH]; intros H; [inversion H|].
  cbn [print_each]. destruct (show x) as [l|e] eqn:Hx.
  - rewrite (run_lift_ok _ _ _ _ eq_refl), run_print. cbn [outcome].
    apply IH. inversion H as [? ? Hh|]; [now rewrite Hx in Hh | assumption].
  - exists e. reflexivity.
Qed.

Lemma enumerate_unshowable es e :
  e ∈ es -> ~ displayable e ->
  Exists (fun ie => succeeded (show_expense ie) = false) (enumerate es).
Proof.
  intros Hin He. unfold enumerate. generalize 1%nat as k.
  induction es as [|e' es IH]; intros k; [inversion Hin|].
  cbn [length seq zip zip_with].
  apply elem_of_cons in Hin as [<-|Hin].
  - apply Exists_cons_hd. rewrite (show_expense_index k 0 e).
    unfold displayable in He. now destruct (succeeded (show_expense (0%nat, e))).
  - apply Exists_cons_tl. now apply IH.
Qed.

(** X4. When one record of the collection cannot be shown in the table (a
    missing field, or an amount that is not a number), listing all expenses
    fails, and delete fails before it asks which record to delete: nothing
    typed is read, and no record can be removed. *)
Theorem unshowable_record_blocks (es : list expense) (e : expense)
    (stdin : list string) :
  e ∈ es -> ~ displayable e ->
  (exists x, outcome (view_all_expenses es stdin) = Raise x /\
             unread (view_all_expenses es stdin) = stdin) /\
  (exists x, outcome (delete_expense es stdin) = Raise x /\
             unread (delete_expense es stdin) = stdin).
Proof.
  intros Hin He.
  destruct (print_each_fails show_expense (enumerate es) stdin
              (enumerate_unshowable es e Hin He)) as [x Hx].
  pose proof (print_each_unread show_expense (enumerate es) stdin) as Hu.
  destruct es as [|e0 es]; [inversion Hin|].
  split; exists x.
  - unfold view_all_expenses.
    rewrite (bind_raise _ _ stdin x).
    + cbn [outcome unread]. rewrite (bind_raise _ _ stdin x) by exact Hx.
      cbn [unread]. now rewrite Hu.
    + now rewrite (bind_raise _ _ stdin x) by exact Hx.
  - unfold delete_expense. rewrite (bind_raise _ _ stdin x) by exact Hx.
    cbn [outcome unread]. now rewrite Hu.
Qed.

Lemma unshowable_record_blocks_witness :
  (mk_expense "2024-05-02" "Bills" "rent" "nine hundred" ∈ with_text_amount /\
   ~ displayable (mk_expense "2024-05-02" "Bills" "rent" "nine hundred")) /\
  (exists x, outcome (view_all_expenses with_text_amount ["1"; ""]) = Raise x /\
             unread (view_all_expenses with_text_amount ["1"; ""]) = ["1"; ""]) /\
  (exists x, outcome (delete_expense with_text_amount ["1"; ""]) = Raise x /\
             unread (delete_expense with_text_amount ["1"; ""]) = ["1"; ""]).
Proof.
  assert (H1 : mk_expense "2024-05-02" "Bills" "rent" "nine hundred" ∈ with_text_amount)
    by (apply list_elem_of_further, list_elem_of_here).
  assert (H2 : ~ displayable (mk_expense "2024-05-02" "Bills" "rent" "nine hundred"))
    by (vm_compute; discriminate).
  split; [split; assumption|].
  exact (unshowable_record_blocks with_text_amount _ ["1"; ""] H1 H2).
Defined.

(** ** What delete returns *)

(** X5. Whatever is typed, when delete returns, the collection it returns
    is the one it was given or that collection with exactly one record
    taken out, the others in their order. *)
Theorem delete_removes_at_most_one (es : list expense) (stdin : list string)
    (es' : list expense) :
  outcome (delete_expense es stdin) = Ok es' ->
  es' = es \/
  exists i, (i < length es)%nat /\ es' = take i es ++ drop (S i) es /\
            length es' = (length es - 1)%nat.
Proof.
  intros H. apply delete_expense_result in H as [->|(i & Hi & ->)]; [now left|].
  right. exists i. split; [exact Hi|]. split.
  - apply delete_take_drop.
  - rewrite length_delete; [reflexivity|]. now apply lookup_lt_is_Some_2.
Qed.

Lemma delete_removes_at_most_one_witness :
  outcome (delete_expense sample ["7"; "two"; "2"; ""])
    = Ok [mk_expense "2024-05-01" "Food" "lunch" "12.5";
          mk_expense "2024-05-03" "Food" "dinner, with friends" "30.25"] /\
  ([mk_expense "2024-05-01" "Food" "lunch" "12.5";
    mk_expense "2024-05-03" "Food" "dinner, with friends" "30.25"] = sample \/
   exists i, (i < length sample)%nat /\
     [mk_expense "2024-05-01" "Food" "lunch" "12.5";
      mk_expense "2024-05-03" "Food" "dinner, with friends" "30.25"]
     = take i sample ++ drop (S i) sample /\
     length [mk_expense "2024-05-01" "Food" "lunch" "12.5";
             mk_expense "2024-05-03" "Food" "dinner, with friends" "30.25"]
     = (length sample - 1)%nat).
Proof.
  assert (H : outcome (delete_expense sample ["7"; "two"; "2"; ""])
              = Ok [mk_expense "2024-05-01" "Food" "lunch" "12.5";
                    mk_expense "2024-05-03" "Food" "dinner, with friends" "30.25"])
    by (vm_compute; reflexivity).
  split; [exact H|].
  exact (delete_removes_at_most_one sample ["7"; "two"; "2"; ""] _ H).
Defined.

(** ** The total of a longer collection *)

Lemma sum_amounts_app acc es1 es2 :
  sum_amounts acc (es1 ++ es2) = sum_amounts acc es1 ≫= fun t => sum_amounts t es2.
Proof.
  revert acc. induction es1 as [|e es1 IH]; intros acc; [reflexivity|].
  cbn [app sum_amounts]. destruct (amount_of e) as [x|]; [|reflexivity].
  apply IH.
Qed.



(** ** The summary of amounts that cancel out *)

Lemma amounts_ok_total es xs : amounts es = Ok xs -> total es = Ok (Py.sum xs).
Proof.
  intros H. unfold total. rewrite sum_amounts_spec, H. reflexivity.
Qed.

Lemma breakdown_zero_total es xs t stdin categories :
  Forall has_category es ->
  amounts es = Ok xs ->
  is_zero t = true ->
  Exists (fun c => records_in es c <> []) categories ->
  breakdown es t categories stdin = Run (Raise ZeroDivisionError) stdin [].
Proof.
  intros Hes Hxs Ht. induction categories as [|c cs IH]; intros Hex; [inversion Hex|].
  cbn [breakdown].
  assert (Hrow : breakdown_row es t c
                 = match records_in es c with
                   | [] => Ok None
                   | _ => Raise ZeroDivisionError
                   end).
  { unfold breakdown_row. rewrite (filter_by_category_spec c es Hes).
    cbn [mbind result_bind bind]. fold (records_in es c).
    destruct (records_in es c) as [|e0 rs] eqn:Hrs; [reflexivity|].
    rewrite sum_amounts_spec. unfold records_in in Hrs.
    rewrite <- Hrs, (amounts_filter (category_is c) es xs Hxs).
    cbn [mbind result_bind bind]. unfold truediv. now rewrite Ht. }
  destruct (records_in es c) as [|e0 rs] eqn:Hrs.
  - rewrite (run_lift_ok _ _ _ _ Hrow).
    change ((mret tt ≫= fun _ : unit => breakdown es t cs) stdin)
      with (let r := breakdown es t cs stdin in
            Run (outcome r) (unread r) ([] ++ printed r)).
    cbv zeta. rewrite IH; [reflexivity|].
    inversion Hex as [? ? Hh|]; [now rewrite Hrs in Hh | assumption].
  - unfold mbind at 1, io_bind, lift. cbn [outcome unread printed].
    now rewrite Hrow.
Qed.

(** X7. The summary divides the amount of each category by the total
    without a guard: when the amounts of the collection convert and their
    float total is zero, and a record has a category of the fixed set, the
    summary prints the total, the number of records and the average, then
    raises ZeroDivisionError at the first category that has records. *)
Theorem summary_zero_total (es : list expense) (xs : list float)
    (stdin : list string) :
  Forall has_category es ->
  Exists category_known es ->
  amounts es = Ok xs ->
  is_zero (Py.sum xs) = true ->
  view_summary es stdin
  = Run (Raise ZeroDivisionError) stdin
      [TotalExpenses (Py.sum xs); Transactions (length es);
       Average (SFdiv prec emax (Py.sum xs) (float_of_Z (Z.of_nat (length es))))].
Proof.
  intros Hes Hex Hxs Hz.
  assert (Hc : Exists (fun c => records_in es c <> []) CATEGORIES).
  { apply Exists_exists in Hex as (e & Hin & c & Hc & Hcin).
    apply Exists_exists. exists c. split; [exact Hcin|].
    intros Hnil. assert (He : e ∈ records_in es c).
    { unfold records_in. apply list_elem_of_filter. now split. }
    rewrite Hnil in He. inversion He. }
  destruct es as [|e0 es]; [inversion Hex|].
  unfold view_summary.
  assert (Hd : truediv_int (Py.sum xs) (Z.of_nat (length (e0 :: es)))
               = Ok (SFdiv prec emax (Py.sum xs) (float_of_Z (Z.of_nat (length (e0 :: es)))))).
  { unfold truediv_int. cbn [length].
    destruct (Z.of_nat (S (length es)) =? 0) eqn:H0; [|reflexivity].
    apply Z.eqb_eq in H0. lia. }
  rewrite (bind_raise _ _ stdin ZeroDivisionError).
  - rewrite (run_lift_ok _ _ _ _ (amounts_ok_total _ _ Hxs)), run_print, run_print.
    rewrite (run_lift_ok _ _ _ _ Hd), run_print.
    rewrite (breakdown_zero_total _ xs _ _ _ Hes Hxs Hz Hc). reflexivity.
  - rewrite (run_lift_ok _ _ _ _ (amounts_ok_total _ _ Hxs)), run_print, run_print.
    rewrite (run_lift_ok _ _ _ _ Hd), run_print.
    rewrite (breakdown_zero_total _ xs _ _ _ Hes Hxs Hz Hc). reflexivity.
Qed.

Lemma summary_zero_total_witness :
  (Forall has_category cancelling /\
   Exists category_known cancelling /\
   amounts cancelling = Ok [S754_finite false 5629499534213120 (-50);
                            S754_finite true 5629499534213120 (-50)] /\
   is_zero (Py.sum [S754_finite false 5629499534213120 (-50);
                    S754_finite true 5629499534213120 (-50)]) = true) /\
  view_summary cancelling [""]
  = Run (Raise ZeroDivisionError) [""]
      [TotalExpenses (Py.sum [S754_finite false 5629499534213120 (-50);
                              S754_finite true 5629499534213120 (-50)]);
       Transactions (length cancelling);
       Average (SFdiv prec emax
                  (Py.sum [S754_finite false 5629499534213120 (-50);
                           S754_finite true 5629499534213120 (-50)])
                  (float_of_Z (Z.of_nat (length cancelling))))].
Proof.
  assert (H1 : Forall has_category cancelling)
    by (repeat constructor; eexists; reflexivity).
  assert (H2 : Exists category_known cancelling).
  { apply Exists_cons_hd. exists "Food". split; [reflexivity|].
    apply list_elem_of_here. }
  assert (H3 : amounts cancelling = Ok [S754_finite false 5629499534213120 (-50);
                                        S754_finite true 5629499534213120 (-50)])
    by (vm_compute; reflexivity).
  assert (H4 : is_zero (Py.sum [S754_finite false 5629499534213120 (-50);
                                S754_finite true 5629499534213120 (-50)]) = true)
    by (vm_compute; reflexivity).
  split; [repeat split; assumption|].
  exact (summary_zero_total cancelling _ [""] H1 H2 H3 H4).
Defined.


(** ** The tables *)

Lemma print_each_run {A} (show : A -> result line) (row : A -> line) xs stdin :
  Forall (fun x => show x = Ok (row x)) xs ->
  print_each show xs stdin = Run (Ok tt) stdin (map row xs).
Proof.
  induction 1 as [|x xs Hx _ IH]; [reflexivity|].
  cbn [print_each map]. rewrite (run_lift_ok _ _ _ _ Hx), run_print, IH.
  reflexivity.
Qed.

Lemma displayable_amount e : displayable e -> amount_of e = Ok (amount_value e).
Proof.
  unfold displayable, show_expense, amount_value. cbn [fst snd].
  destruct (getitem e "date") as [v1|];
    cbn [mbind result_bind bind succeeded]; [|discriminate].
  destruct (to_text v1); cbn [mbind result_bind bind succeeded]; [|discriminate].
  destruct (getitem e "category") as [v2|]; cbn [mbind result_bind bind succeeded]; [|discriminate].
  destruct (to_text v2); cbn [mbind result_bind bind succeeded]; [|discriminate].
  destruct (getitem e "description") as [v3|]; cbn [mbind result_bind bind succeeded]; [|discriminate].
  destruct (to_text v3); cbn [mbind result_bind bind succeeded]; [|discriminate].
  destruct (amount_of e); cbn [mbind result_bind bind succeeded]; [reflexivity | discriminate].
Qed.

Lemma displayable_amounts es :
  Forall displayable es -> amounts es = Ok (map amount_value es).
Proof.
  induction 1 as [|e es He _ IH]; [reflexivity|].
  cbn [amounts map]. rewrite (displayable_amount e He), IH. reflexivity.
Qed.

Lemma displayable_has_category e : displayable e -> has_category e.
Proof.
  unfold displayable, show_expense, has_category, getitem. cbn [fst snd].
  destruct (named e !! "date") as [v1|];
    cbn [mbind result_bind bind of_option succeeded]; [|discriminate].
  destruct (to_text v1); cbn [mbind result_bind bind succeeded]; [|discriminate].
  destruct (named e !! "category") as [v2|];
    cbn [mbind result_bind bind of_option to_text succeeded]; [eauto | discriminate].
Qed.

Lemma show_expense_row i e :
  displayable e -> show_expense (i, e) = Ok (table_row (i, e)).
Proof.
  intros He. pose proof (displayable_amount e He) as Ha. revert He.
  unfold displayable, show_expense, table_row, text_of, getitem. cbn [fst snd].
  rewrite Ha.
  destruct (named e !! "date") as [[date|]|];
    cbn [mbind result_bind bind of_option to_text succeeded]; try discriminate.
  destruct (named e !! "category") as [[category|]|];
    cbn [mbind result_bind bind of_option to_text succeeded]; try discriminate.
  destruct (named e !! "description") as [[description|]|];
    cbn [mbind result_bind bind of_option to_text succeeded]; try discriminate.
  reflexivity.
Qed.

Lemma show_in_category_row i e :
  displayable e -> show_in_category (i, e) = Ok (category_row (i, e)).
Proof.
  intros He. pose proof (displayable_amount e He) as Ha. revert He.
  unfold displayable, show_expense, show_in_category, category_row, text_of, getitem.
  cbn [fst snd]. rewrite Ha.
  destruct (named e !! "date") as [[date|]|];
    cbn [mbind result_bind bind of_option to_text succeeded]; try discriminate.
  destruct (named e !! "category") as [[category|]|];
    cbn [mbind result_bind bind of_option to_text succeeded]; try discriminate.
  destruct (named e !! "description") as [[description|]|];
    cbn [mbind result_bind bind of_option to_text succeeded]; try discriminate.
  reflexivity.
Qed.

Lemma enumerate_Forall {A} (P : A -> Prop) (Q : nat * A -> Prop) (xs : list A) :
  (forall i x, P x -> Q (i, x)) ->
  Forall P xs -> Forall Q (enumerate xs).
Proof.
  intros HPQ Hxs. unfold enumerate. generalize 1%nat as k.
  induction Hxs as [|x xs Hx _ IH]; intros k; cbn [length seq zip zip_with];
    constructor; [now apply HPQ | apply IH].
Qed.

Lemma table_printed es stdin :
  Forall displayable es ->
  print_each show_expense (enumerate es) stdin
  = Run (Ok tt) stdin (map table_row (enumerate es)).
Proof.
  intros Hes. apply print_each_run.
  apply (enumerate_Forall displayable); [|exact Hes].
  intros i e. apply show_expense_row.
Qed.

Lemma table_in_category es stdin :
  Forall displayable es ->
  print_each show_in_category (enumerate es) stdin
  = Run (Ok tt) stdin (map category_row (enumerate es)).
Proof.
  intros Hes. apply print_each_run.
  apply (enumerate_Forall displayable); [|exact Hes].
  intros i e. apply show_in_category_row.
Qed.



(** ** The view of one category *)

Lemma count_in_spec category es acc :
  Forall has_category es ->
  count_in category acc es = Ok (acc + length (records_in es category))%nat.
Proof.
  intros Hes. revert acc. induction Hes as [|e es He _ IH]; intros acc.
  - cbn. f_equal. lia.
  - cbn [count_in]. rewrite (in_category_spec category e He).
    cbn [mbind result_bind bind]. unfold records_in. rewrite filter_cons.
    destruct (decide (category_is category e)) as [Hc|Hc].
    + rewrite (bool_decide_eq_true_2 _ Hc), IH. cbn [length]. f_equal.
      unfold records_in. lia.
    + rewrite (bool_decide_eq_false_2 _ Hc), IH. reflexivity.
Qed.

Lemma sum_amounts_in_spec category es acc :
  Forall displayable es ->
  sum_amounts_in category acc es
  = Ok (foldl fadd acc (map amount_value (records_in es category))).
Proof.
  intros Hes. revert acc. induction Hes as [|e es He _ IH]; intros acc.
  - reflexivity.
  - cbn [sum_amounts_in].
    rewrite (in_category_spec category e (displayable_has_category e He)).
    cbn [mbind result_bind bind]. unfold records_in. rewrite filter_cons.
    destruct (decide (category_is category e)) as [Hc|Hc].
    + rewrite (bool_decide_eq_true_2 _ Hc), (displayable_amount e He).
      cbn [bind map foldl]. apply IH.
    + rewrite (bool_decide_eq_false_2 _ Hc). apply IH.
Qed.

Lemma counts_printed es stdin :
  Forall displayable es ->
  print_each (show_count es) (enumerate CATEGORIES) stdin
  = Run (Ok tt) stdin (map (count_line es) (enumerate CATEGORIES)).
Proof.
  intros Hes. apply print_each_run. apply Forall_forall. intros [i c] _.
  unfold show_count, count_line. cbn [fst snd].
  rewrite count_in_spec
    by (eapply Forall_impl; [exact Hes | apply displayable_has_category]).
  rewrite (sum_amounts_in_spec c es fzero Hes). reflexivity.
Qed.

Lemma records_in_displayable es category :
  Forall displayable es -> Forall displayable (records_in es category).
Proof.
  intros Hes. apply Forall_forall. intros e He.
  apply list_elem_of_filter in He as [_ He].
  rewrite Forall_forall in Hes. now apply Hes.
Qed.

Lemma count_of_record e cs :
  NoDup cs ->
  (exists c, named e !! "category" = Some (Some c) /\ c ∈ cs) ->
  foldr Nat.add 0%nat
    (map (fun c => if decide (category_is c e) then 1%nat else 0%nat) cs) = 1%nat.
Proof.
  intros Hnd (c & Hc & Hin). induction cs as [|c' cs IH]; [inversion Hin|].
  apply NoDup_cons in Hnd as [Hnotin Hnd]. cbn [map foldr].
  destruct (decide (category_is c' e)) as [Hc'|Hc'].
  - unfold category_is in Hc'. rewrite Hc in Hc'. injection Hc' as ->.
    assert (H0 : foldr Nat.add 0%nat
              (map (fun c => if decide (category_is c e) then 1%nat else 0%nat) cs)
            = 0%nat).
    { clear IH Hin Hnd. induction cs as [|c2 cs IH]; [reflexivity|].
      cbn [map foldr]. destruct (decide (category_is c2 e)) as [H2|H2].
      - unfold category_is in H2. rewrite Hc in H2. injection H2 as ->.
        exfalso. apply Hnotin, list_elem_of_here.
      - rewrite IH; [reflexivity|]. intros H. apply Hnotin.
        now apply list_elem_of_further. }
    now rewrite H0.
  - apply elem_of_cons in Hin as [->|Hin]; [now destruct Hc'|].
    now rewrite IH.
Qed.

Lemma counts_partition es cs :
  NoDup cs ->
  Forall (fun e => exists c, named e !! "category" = Some (Some c) /\ c ∈ cs) es ->
  foldr Nat.add 0%nat (map (fun c => length (records_in es c)) cs) = length es.
Proof.
  intros Hnd. induction 1 as [|e es He _ IH]; cbn [length].
  - induction cs; [reflexivity|]. cbn [map foldr].
    apply NoDup_cons in Hnd as [_ Hnd]. now rewrite (IHcs Hnd).
  - change (S (length es)) with (1 + length es)%nat.
    rewrite <- IH, <- (count_of_record e cs Hnd He). clear.
    induction cs as [|c cs IH]; [reflexivity|].
    cbn [map foldr]. rewrite IH. unfold records_in at 1. rewrite filter_cons.
    destruct (decide (category_is c e)); cbn [length]; unfold records_in; lia.
Qed.





(** ** A session *)

Lemma session_of_more es d stdin line s :
  session_of es d stdin s -> session_of es d (line :: stdin) s.
Proof.
  intros (H1 & H2 & H3 & H4). split; [now apply suffix_cons_r|].
  split; [exact H2|]. split; [|exact H4].
  intros Hs. destruct (H3 Hs). split; [assumption|].
  now apply list_elem_of_further.
Qed.

Lemma session_of_announce es d stdin ns s :
  session_of es d stdin s -> session_of es d stdin (announce ns s).
Proof. intros H. exact H. Qed.

Lemma session_of_raise es d stdin e rest ns :
  rest `suffix_of` stdin ->
  session_of es d stdin (Session (Raise e) es d rest ns).
Proof.
  intros Hr. split; [exact Hr|]. split; [reflexivity|].
  split; [discriminate | trivial].
Qed.

Lemma after_ends {A} (r : run A) es d stdin
    (continue : A -> list string -> option session)
    (keeps : A -> list expense) :
  unread r `suffix_of` stdin ->
  (forall a, outcome r = Ok a ->
     exists s, continue a (unread r) = Some s /\
               session_of (keeps a) d (unread r) s) ->
  (forall a, outcome r = Ok a -> Forall plain es -> Forall plain (keeps a)) ->
  exists s, after r es d continue = Some s /\ session_of es d stdin s.
Proof.
  intros Hr Hc Hk. unfold after. destruct (outcome r) as [a|e].
  - destruct (Hc a eq_refl) as (s & -> & Hp & Hx & Ho & Hpl).
    eexists. split; [reflexivity|].
    split; [cbn [announce pending]; etransitivity; eassumption|].
    split; [exact Hx|]. split.
    + intros Hs. destruct (Ho Hs) as [H1 H2]. split; [exact H1|].
      destruct Hr as [l ->]. apply elem_of_app. now right.
    + intros Hes. apply Hpl, (Hk a eq_refl Hes).
  - eexists. split; [reflexivity|]. now apply session_of_raise.
Qed.

Lemma main_loop_ends fuel clock turn es d stdin :
  (length stdin < fuel)%nat ->
  exists s, main_loop fuel clock turn es d stdin = Some s /\
            session_of es d stdin s.
Proof.
  revert turn es stdin. induction fuel as [|fuel IH]; intros turn es stdin Hf;
    [lia|].
  destruct stdin as [|choice stdin].
  { eexists. split; [reflexivity|]. now apply session_of_raise. }
  cbn [length] in Hf.
  assert (Hgo : forall (r : list string) es',
            r `suffix_of` stdin ->
            exists s, main_loop fuel clock (S turn) es' d r = Some s /\
                      session_of es' d r s).
  { intros r es' Hr. apply IH. apply suffix_length in Hr. lia. }
  cbn [main_loop].
  destruct (String.eqb choice "1").
  { destruct (after_ends (add_expense (clock turn) es stdin) es d stdin
                (fun es' r => main_loop fuel clock (S turn) es' d r)
                (fun es' => es'))
      as (s & -> & Hs).
    - apply forward_add_expense.
    - intros es' _. apply Hgo, forward_add_expense.
    - intros es' Ha Hes. exact (add_expense_plain _ _ _ _ Hes Ha).
    - exists s. split; [reflexivity|]. now apply session_of_more. }
  destruct (String.eqb choice "2").
  { destruct (after_ends (view_all_expenses es stdin) es d stdin
                (fun _ r => main_loop fuel clock (S turn) es d r)
                (fun _ => es))
      as (s & -> & Hs).
    - apply forward_view_all_expenses.
    - intros _ _. apply Hgo, forward_view_all_expenses.
    - trivial.
    - exists s. split; [reflexivity|]. now apply session_of_more. }
  destruct (String.eqb choice "3").
  { destruct (after_ends (view_by_category es stdin) es d stdin
                (fun _ r => main_loop fuel clock (S turn) es d r)
                (fun _ => es))
      as (s & -> & Hs).
    - apply forward_view_by_category.
    - intros _ _. apply Hgo, forward_view_by_category.
    - trivial.
    - exists s. split; [reflexivity|]. now apply session_of_more. }
  destruct (String.eqb choice "4").
  { destruct (after_ends (view_summary es stdin) es d stdin
                (fun _ r => main_loop fuel clock (S turn) es d r)
                (fun _ => es))
      as (s & -> & Hs).
    - apply forward_view_summary.
    - intros _ _. apply Hgo, forward_view_summary.
    - trivial.
    - exists s. split; [reflexivity|]. now apply session_of_more. }
  destruct (String.eqb choice "5").
  { destruct (after_ends (delete_expense es stdin) es d stdin
                (fun es' r => main_loop fuel clock (S turn) es' d r)
                (fun es' => es'))
      as (s & -> & Hs).
    - apply forward_delete_expense.
    - intros es' _. apply Hgo, forward_delete_expense.
    - intros es' Ha Hes. exact (delete_expense_plain _ _ _ Hes Ha).
    - exists s. split; [reflexivity|]. now apply session_of_more. }
  destruct (String.eqb choice "6") eqn:H6.
  { apply String.eqb_eq in H6 as ->.
    destruct (save_expenses es d) as [d' ls] eqn:Hsave.
    eexists. split; [reflexivity|].
    split; [now apply suffix_cons_r|]. split; [discriminate|].
    split; [|trivial]. intros _. cbn [stored kept]. rewrite Hsave.
    split; [reflexivity|]. apply list_elem_of_here. }
  destruct stdin as [|enter stdin].
  { eexists. split; [reflexivity|]. apply session_of_raise.
    now apply suffix_cons_r. }
  destruct (Hgo stdin es) as (s & -> & Hs); [now apply suffix_cons_r|].
  eexists. split; [reflexivity|].
  now apply session_of_announce, session_of_more, session_of_more.
Qed.

Lemma main_ends clock d stdin :
  exists s, main clock d stdin = Some s /\
            session_of (load_expenses d).1 d stdin s.
Proof.
  unfold main. destruct (load_expenses d) as [es ls]. cbn [fst].
  destruct stdin as [|enter stdin].
  - eexists. split; [reflexivity|]. now apply session_of_raise.
  - destruct (main_loop_ends (S (length stdin)) clock 0 es d stdin)
      as (s & -> & Hs); [lia|].
    eexists. split; [reflexivity|].
    now apply session_of_announce, session_of_more.
Qed.

(** X10. A session on lines typed in advance always ends: by Save and Exit,
    or by an exception that escapes main (EOFError when the lines run
    out). It reads the lines in their order. When it ends by an exception
    the file is as it was at the start: nothing is written before Save and
    Exit, so that what was added or deleted in the session is lost. *)
Theorem session_ends (clock : nat -> string) (d : disk) (stdin : list string) :
  exists s,
    main clock d stdin = Some s /\
    pending s `suffix_of` stdin /\
    (forall e, status s = Raise e -> stored s = d).
Proof.
  destruct (main_ends clock d stdin) as (s & Hm & H1 & H2 & _).
  exists s. auto.
Qed.

(** X11. A session ends normally only if the line 6 was typed, and the file
    is then what save writes for the collection of that moment, whatever
    the file held before. *)
Theorem exit_saves_collection (clock : nat -> string) (d : disk)
    (stdin : list string) (s : session) :
  main clock d stdin = Some s ->
  status s = Ok tt ->
  "6" ∈ stdin /\ stored s = (save_expenses (kept s) d).1.
Proof.
  intros Hm Hs. destruct (main_ends clock d stdin) as (s' & Hm' & _ & _ & H & _).
  rewrite Hm in Hm'. injection Hm' as <-. destruct (H Hs). now split.
Qed.

Lemma exit_saves_collection_witness :
  (main (fun _ => "2024-05-01") None [""; "0"; ""; "6"; "1"]
   = Some (Session (Ok tt) [] (Some (Regular (saved_text []) None)) ["1"]
             [Welcome; Shown NoFile; MainMenu; InvalidMenuChoice;
              MainMenu; Shown Saved; ThankYou]) /\
   status (Session (Ok tt) [] (Some (Regular (saved_text []) None)) ["1"]
             [Welcome; Shown NoFile; MainMenu; InvalidMenuChoice;
              MainMenu; Shown Saved; ThankYou]) = Ok tt) /\
  "6" ∈ [""; "0"; ""; "6"; "1"] /\
  stored (Session (Ok tt) [] (Some (Regular (saved_text []) None)) ["1"]
            [Welcome; Shown NoFile; MainMenu; InvalidMenuChoice;
             MainMenu; Shown Saved; ThankYou])
  = (save_expenses
       (kept (Session (Ok tt) [] (Some (Regular (saved_text []) None)) ["1"]
                [Welcome; Shown NoFile; MainMenu; InvalidMenuChoice;
                 MainMenu; Shown Saved; ThankYou])) None).1.
Proof.
  assert (H : main (fun _ => "2024-05-01") None [""; "0"; ""; "6"; "1"]
              = Some (Session (Ok tt) [] (Some (Regular (saved_text []) None)) ["1"]
                        [Welcome; Shown NoFile; MainMenu; InvalidMenuChoice;
                         MainMenu; Shown Saved; ThankYou]))
    by (vm_compute; reflexivity).
  split; [split; [exact H | reflexivity]|].
  exact (exit_saves_collection _ None _ _ H eq_refl).
Defined.




Lemma load_fails_early text k :
  (k <= 1)%nat ->
  exists e, load_expenses (Some (Regular text (Some k))) = ([], [ErrorLoading e]).
Proof.
  intros Hk. unfold load_expenses, rows_of. rewrite append_each. cbn [app].
  assert (Hs : items (DictReader (take k (splitlines text)) (Some OSError)) = []).
  { unfold DictReader, reader.
    pose proof (reader_from_short (take k (splitlines text)) parse_reset OSError) as Hl.
    rewrite length_take in Hl. specialize (Hl ltac:(lia)).
    destruct (items (reader_from parse_reset (take k (splitlines text)) (Some OSError)))
      as [|h [|r rows]]; [reflexivity | reflexivity | simpl in Hl; lia]. }
  assert (He : exists e, stopped (DictReader (take k (splitlines text)) (Some OSError))
                         = Some e).
  { unfold DictReader, reader.
    destruct (reader_from_stopped (take k (splitlines text)) parse_reset OSError)
      as [e' He'].
    exists e'.
    destruct (items (reader_from parse_reset (take k (splitlines text)) (Some OSError)));
      cbn [stopped]; exact He'. }
  destruct He as [e He]. exists e. now rewrite Hs, He.
Qed.

(** X14. When the reading of the file fails before its second line has been
    read (bytes that are not text at the start of the file, say), the
    session starts with the empty collection; Save and Exit then replaces
    the file by one that holds the header alone, whatever records the file
    held. *)
Theorem failed_load_then_exit (clock : nat -> string) (text : string)
    (k : nat) (enter : string) (rest : list string) :
  (k <= 1)%nat ->
  exists e,
    main clock (Some (Regular text (Some k))) (enter :: "6" :: rest)
    = Some (Session (Ok tt) []
              (Some (Regular (join_fields fieldnames +:+ lineterminator) None)) rest
              [Welcome; Shown (ErrorLoading e); MainMenu; Shown Saved; ThankYou]).
Proof.
  intros Hk. destruct (load_fails_early text k Hk) as [e He]. exists e.
  unfold main. rewrite He. reflexivity.
Qed.

Lemma failed_load_then_exit_witness :
  (0 <= 1)%nat /\
  exists e,
    main one_day
      (Some (Regular (saved_text [("2024-05-01", "Food", "lunch", "12.5")]) (Some 0%nat)))
      ("" :: "6" :: [])
    = Some (Session (Ok tt) []
              (Some (Regular (join_fields fieldnames +:+ lineterminator) None)) []
              [Welcome; Shown (ErrorLoading e); MainMenu; Shown Saved; ThankYou]).
Proof.
  split; [lia|].
  apply (failed_load_then_exit one_day
           (saved_text [("2024-05-01", "Food", "lunch", "12.5")]) 0 "" []).
  lia.
Defined.

(** ** Texts that the reader accepts *)

(** X15. Load never fails on the content of a file: whatever text the file
    holds (within the limits of the embedding: no NUL character, no more
    than 131072 characters), when it can be read to its end load reports
    the number of records and no error. Rows that are not expenses are
    loaded as they are. *)
Theorem load_accepts_text (text : string) :
  within_reader_limits text ->
  exists es, load_expenses (Some (Regular text None)) = (es, [Loaded (length es)]).
Proof. intros _. apply load_readable_file. Qed.

Lemma load_accepts_text_witness :
  within_reader_limits foreign_text /\
  exists es,
    load_expenses (Some (Regular foreign_text None)) = (es, [Loaded (length es)]).
Proof.
  assert (H : within_reader_limits foreign_text).
  { split; [vm_compute; discriminate | vm_compute; reflexivity]. }
  split; [exact H|].
  exact (load_accepts_text foreign_text H).
Defined.

(** ** Answers that delete rejects *)

Lemma ask_index_skip es bad stdin :
  Forall (fun s => bad_index es s = true) bad ->
  ask_index es (bad ++ stdin)
  = Run (outcome (ask_index es stdin)) (unread (ask_index es stdin))
        (map (index_rejection es) bad ++ printed (ask_index es stdin)).
Proof.
  induction 1 as [|s bad Hs _ IH]; [symmetry; apply run_eta|].
  cbn [app ask_index map]. unfold bad_index, index_rejection in *.
  destruct (String.eqb (lower s) "c"); [discriminate|].
  destruct (int s) as [choice|].
  - destruct ((1 <=? choice) && (choice <=? Z.of_nat (length es)));
      [discriminate|].
    now rewrite IH.
  - now rewrite IH.
Qed.

Lemma displayable_texts e :
  displayable e ->
  getitem e "description" = Ok (Some (text_of e "description")) /\
  getitem e "amount" = Ok (Some (text_of e "amount")).
Proof.
  intros He. pose proof (displayable_amount e He) as Ha. revert He Ha.
  unfold displayable, show_expense, amount_of, text_of, getitem. cbn [fst snd].
  destruct (named e !! "date") as [[date|]|];
    cbn [mbind result_bind bind of_option to_text succeeded]; try discriminate.
  destruct (named e !! "category") as [[category|]|];
    cbn [mbind result_bind bind of_option to_text succeeded]; try discriminate.
  destruct (named e !! "description") as [[description|]|];
    cbn [mbind result_bind bind of_option to_text succeeded]; try discriminate.
  destruct (named e !! "amount") as [[amount|]|];
    cbn [mbind result_bind bind of_option to_float succeeded]; try discriminate.
  intros _ _. split; reflexivity.
Qed.

Lemma remove_at_run es i e :
  Forall displayable es ->
  es !! Z.to_nat (i - 1) = Some e ->
  remove_at i es
  = Ok (delete (Z.to_nat (i - 1)) es,
        Deleted (Some (text_of e "description")) (Some (text_of e "amount"))).
Proof.
  intros Hes Hl. unfold remove_at, pop. rewrite Hl.
  cbn [mbind result_bind bind].
  assert (He : displayable e).
  { rewrite Forall_forall in Hes. apply Hes. eapply list_elem_of_lookup_2, Hl. }
  destruct (displayable_texts e He) as [-> ->]. reflexivity.
Qed.

Lemma ask_index_run es bad choice rest i e :
  Forall displayable es ->
  Forall (fun s => bad_index es s = true) bad ->
  int choice = Some i ->
  es !! Z.to_nat (i - 1) = Some e -> 1 <= i ->
  ask_index es (bad ++ choice :: rest)
  = Run (Ok (delete (Z.to_nat (i - 1)) es, false)) rest
        (map (index_rejection es) bad
         ++ [Deleted (Some (text_of e "description")) (Some (text_of e "amount"))]).
Proof.
  intros Hes Hbad Hi Hl H1.
  assert (Hlen : (Z.to_nat (i - 1) < length es)%nat)
    by (eapply lookup_lt_Some, Hl).
  assert (Hb : (1 <=? i) && (i <=? Z.of_nat (length es)) = true).
  { apply andb_true_intro. split; apply Z.leb_le; lia. }
  rewrite (ask_index_skip es bad _ Hbad). cbn [ask_index].
  rewrite (number_not_cancel _ _ Hi), Hi, Hb, (remove_at_run es i e Hes Hl).
  reflexivity.
Qed.



(** ** Adding, then deleting what was added *)



(** ** The description that add stores *)

Lemma rev_app_append s1 s2 : String.rev_app s1 s2 = String.rev s1 +:+ s2.
Proof.
  revert s2. induction s1 as [|a s1 IH]; intros s2; [reflexivity|].
  unfold String.rev. cbn [String.rev_app].
  rewrite (IH (String a s2)), (IH (String a EmptyString)).
  now rewrite append_snoc.
Qed.

Lemma rev_cons a s : String.rev (String a s) = String.rev s +:+ String a EmptyString.
Proof. unfold String.rev at 1. cbn [String.rev_app]. apply rev_app_append. Qed.

Lemma rev_append s t : String.rev (s +:+ t) = String.rev t +:+ String.rev s.
Proof.
  induction s as [|a s IH].
  - cbn. now rewrite append_nil_r.
  - rewrite append_cons, !rev_cons, IH. apply append_assoc.
Qed.

Lemma rev_rev s : String.rev (String.rev s) = s.
Proof.
  induction s as [|a s IH]; [reflexivity|].
  now rewrite rev_cons, rev_append, IH.
Qed.

Lemma lstrip_length s : (String.length (lstrip s) <= String.length s)%nat.
Proof.
  induction s as [|c s IH]; [reflexivity|].
  cbn [lstrip]. destruct (is_space c); cbn [String.length]; lia.
Qed.

Lemma lstrip_lstrip s : lstrip (lstrip s) = lstrip s.
Proof.
  induction s as [|c s IH]; [reflexivity|].
  cbn [lstrip]. destruct (is_space c) eqn:Hc; [exact IH|].
  cbn [lstrip]. now rewrite Hc.
Qed.

Lemma lstrip_rest s : exists ws, s = ws +:+ lstrip s.
Proof.
  induction s as [|c s [ws IH]]; [now exists EmptyString|].
  cbn [lstrip]. destruct (is_space c).
  - exists (String c ws). rewrite append_cons. now f_equal.
  - now exists EmptyString.
Qed.

Lemma lstrip_head c s : lstrip (String c s) = String c s -> is_space c = false.
Proof.
  cbn [lstrip]. destruct (is_space c); [|reflexivity].
  intros H. pose proof (lstrip_length s) as Hl. rewrite H in Hl.
  cbn [String.length] in Hl. lia.
Qed.

Lemma lstrip_rev_end t :
  lstrip t = t ->
  lstrip (String.rev (lstrip (String.rev t))) = String.rev (lstrip (String.rev t)).
Proof.
  intros Ht. destruct (lstrip_rest (String.rev t)) as [ws Hws].
  set (u := lstrip (String.rev t)) in *.
  assert (Hrev : t = String.rev u +:+ String.rev ws).
  { rewrite <- (rev_rev t), Hws. apply rev_append. }
  destruct (String.rev u) as [|c r] eqn:Hu; [reflexivity|].
  rewrite Hrev, append_cons in Ht. apply lstrip_head in Ht.
  cbn [lstrip]. now rewrite Ht.
Qed.

Lemma strip_strip s : strip (strip s) = strip s.
Proof.
  unfold strip.
  rewrite (lstrip_rev_end (lstrip s) (lstrip_lstrip s)), rev_rev.
  now rewrite lstrip_lstrip.
Qed.


